(** * Token list: filter/sort engine, trend estimator, row heights, history cache

    A shallow embedding of the algorithmic core of
    [frontend/src/components/TokenEventsList.tsx]: the [filteredTokens] memo,
    [calculateTrend], [estimateSize], [handleTokenClick], the expand-all
    handler and [loadCachedHistories].

    JavaScript numbers are IEEE-754 binary64 values.  Where the component
    computes with them and the rounding decides the result (the sums, means
    and quotient of [calculateTrend], the reducer of the liquidity-lock test)
    they are modelled by the machine's doubles ([float], with NaN and the
    infinities).  Where the component only compares them, or adds the two
    row heights 42 and 800, they are exact rationals ([Q]); indices,
    millisecond timestamps and record counts are integers ([Z]).  Strings
    are [string]; sets of addresses are [gset string] and
    [Map<number, number>] is [gmap Z Q]. *)

From Stdlib Require Import Floats.
From Stdlib Require Import ZArith QArith Lqa Lia Bool List String Ascii.
From Stdlib Require Import Sorting.Permutation Sorting.Sorted.
From stdpp Require Import gmap strings list fin_maps.
Import ListNotations.

Set Warnings "-inexact-float".

Local Open Scope string_scope.

(** ** Built-in string operations used by the component *)

Module JsString.

(** [s.includes(q)]: [q] occurs in [s] as a contiguous substring. *)
Fixpoint includes (s q : string) : bool :=
  String.prefix q s ||
  match s with
  | EmptyString => false
  | String _ s' => includes s' q
  end.

(** [s.endsWith(suffix)]. *)
Definition endsWith (s suffix : string) : bool :=
  let n := String.length s in
  let m := String.length suffix in
  (m <=? n)%nat && String.eqb (String.substring (n - m) m s) suffix.

(** [s.replace(pattern, replacement)] with a string pattern: only the first
    occurrence is replaced. *)
Fixpoint replace (pattern replacement s : string) : string :=
  if String.prefix pattern s then
    String.append replacement
      (String.substring (String.length pattern)
         (String.length s - String.length pattern) s)
  else
    match s with
    | EmptyString => EmptyString
    | String c s' => String c (replace pattern replacement s')
    end.

(** The ASCII fragment of [toLowerCase]: [A]..[Z] go to [a]..[z], every
    other character is left alone.  The filter itself is stated over an
    arbitrary case mapping; this one instantiates it on concrete inputs. *)
Definition lowerAscii (c : ascii) : ascii :=
  let n := nat_of_ascii c in
  if ((65 <=? n) && (n <=? 90))%nat then ascii_of_nat (n + 32) else c.

Fixpoint asciiToLowerCase (s : string) : string :=
  match s with
  | EmptyString => EmptyString
  | String c s' => String (lowerAscii c) (asciiToLowerCase s')
  end.

(** Truthiness of a string: only the empty string is falsy. *)
Definition truthy (s : string) : bool :=
  match s with
  | EmptyString => false
  | String _ _ => true
  end.

End JsString.

(** ** Data model *)

(** Modelled from the spec: the [Token] and [FilterState] types are declared
    in [../types], which is not among the sources.  The records below carry
    exactly the fields that the component reads, with the value sets the
    specification gives them ([riskLevel] is the enumeration
    safe | warning | danger). *)
Inductive RiskLevel := safe | warning | danger.

Definition RiskLevel_eqb (a b : RiskLevel) : bool :=
  match a, b with
  | safe, safe | warning, warning | danger, danger => true
  | _, _ => false
  end.

Record Token := mkToken {
  tokenAddress : string;
  tokenName : string;
  tokenSymbol : string;
  tokenAgeHours : Q;
  gpHolderCount : Q;
  hpLiquidityAmount : Q;
  hpIsHoneypot : bool;
  riskLevel : RiskLevel;
  gpOwnerAddress : string;
  gpLpHolders : string
}.

(** The fields [sortDirection], [hideStagnantHolders],
    [hideStagnantLiquidity] and [stagnantRecordCount] of the persisted
    configuration are never read by [filteredTokens] and are left out. *)
Record FilterState := mkFilterState {
  minHolders : Q;
  minLiquidity : Q;
  hideHoneypots : bool;
  showOnlyHoneypots : bool;
  hideDanger : bool;
  hideWarning : bool;
  showOnlySafe : bool;
  hideNotRenounced : bool;
  hideUnlockedLiquidity : bool;
  searchQuery : string;
  sortBy : string;
  maxRecords : Z
}.

(** One entry of the parsed [gpLpHolders] descriptor.  [is_locked] is the
    truthiness of [holder.is_locked]; [percent] is the double
    [Number(holder.percent)], NaN when the field does not read as a
    number. *)
Record LpHolder := mkLpHolder {
  is_locked : bool;
  percent : float
}.

(** [x < y] on numbers. *)
Definition Qltb (x y : Q) : bool := negb (Qle_bool y x).

(** ** Filter/Sort engine: the [filteredTokens] memo *)

Definition ZERO_ADDRESS : string := "0x0000000000000000000000000000000000000000".

Section FilterSort.

(** [String.prototype.toLowerCase], the host's Unicode case mapping. *)
Variable toLowerCase : string -> string.

(** [JSON.parse] of a lock descriptor, followed by the reads that the
    reducer performs on each entry.  [None]: the parse, or a read on the
    parsed value, throws. *)
Variable parseLpHolders : string -> option (list LpHolder).

(** The reducer [acc + (holder.is_locked ? Number(holder.percent) * 100 : 0)]
    from 0, in double arithmetic: each product and each partial sum is
    rounded. *)
Definition totalLocked (lpHolders : list LpHolder) : float :=
  fold_left
    (fun acc holder =>
       (acc + (if is_locked holder then percent holder * 100 else 0))%float)
    lpHolders 0%float.

(** The [try]/[catch] block guarded by [hideUnlockedLiquidity]: [true]
    when the block makes the predicate return [false]. *)
Definition rejectsUnlocked (token : Token) : bool :=
  let descriptor :=
    if JsString.truthy (gpLpHolders token) then gpLpHolders token else "[]" in
  match parseLpHolders descriptor with
  | None => true
  | Some lpHolders => (totalLocked lpHolders <? 90)%float
  end.

(** The search test: [matches] in the source. *)
Definition searchToken (token : Token) (query : string) : bool :=
  let query := toLowerCase query in
  JsString.includes (toLowerCase (tokenName token)) query ||
  JsString.includes (toLowerCase (tokenSymbol token)) query ||
  JsString.includes (toLowerCase (tokenAddress token)) query.

(** The callback of [result.filter], one [if] per source statement. *)
Definition tokenFilter (currentFilters : FilterState) (token : Token) : bool :=
  if hideHoneypots currentFilters && hpIsHoneypot token then false else
  if showOnlyHoneypots currentFilters && negb (hpIsHoneypot token) then false else
  if hideDanger currentFilters && RiskLevel_eqb (riskLevel token) danger then false else
  if hideWarning currentFilters && RiskLevel_eqb (riskLevel token) warning then false else
  if showOnlySafe currentFilters && negb (RiskLevel_eqb (riskLevel token) safe) then false else
  if hideNotRenounced currentFilters
     && negb (String.eqb (gpOwnerAddress token) ZERO_ADDRESS) then false else
  if hideUnlockedLiquidity currentFilters && rejectsUnlocked token then false else
  if Qltb 0 (minHolders currentFilters)
     && Qltb (gpHolderCount token) (minHolders currentFilters) then false else
  if Qltb 0 (minLiquidity currentFilters)
     && Qltb (hpLiquidityAmount token) (minLiquidity currentFilters) then false else
  if JsString.truthy (searchQuery currentFilters) then
    searchToken token (searchQuery currentFilters)
  else true.

(** The same callback in the variant of the component that receives its
    filters as props: it has no ownership and no liquidity-lock test. *)
Definition tokenFilterProps (filters : FilterState) (token : Token) : bool :=
  if hideHoneypots filters && hpIsHoneypot token then false else
  if showOnlyHoneypots filters && negb (hpIsHoneypot token) then false else
  if hideDanger filters && RiskLevel_eqb (riskLevel token) danger then false else
  if hideWarning filters && RiskLevel_eqb (riskLevel token) warning then false else
  if showOnlySafe filters && negb (RiskLevel_eqb (riskLevel token) safe) then false else
  if Qltb 0 (minHolders filters)
     && Qltb (gpHolderCount token) (minHolders filters) then false else
  if Qltb 0 (minLiquidity filters)
     && Qltb (hpLiquidityAmount token) (minLiquidity filters) then false else
  if JsString.truthy (searchQuery filters) then
    searchToken token (searchQuery filters)
  else true.

(** [getRiskScore]; the [default] branch is unreachable on the
    three-valued enumeration. *)
Definition getRiskScore (token : Token) : Q :=
  match riskLevel token with
  | safe => 2%Q
  | warning => 1%Q
  | danger => 0%Q
  end.

(** The comparator passed to [result.sort].  [field] is the string that the
    [switch] inspects (the cast to [SortField] has no run-time effect). *)
Definition compareTokens (currentFilters : FilterState) (a b : Token) : Q :=
  let sortBy := sortBy currentFilters in
  let ascending := JsString.endsWith sortBy "_asc" in
  let direction : Q := if ascending then 1%Q else (-1)%Q in
  let field := if ascending then JsString.replace "_asc" "" sortBy else sortBy in
  if String.eqb field "age" then
    ((tokenAgeHours b - tokenAgeHours a) * direction)%Q
  else if String.eqb field "holders" then
    ((gpHolderCount a - gpHolderCount b) * direction)%Q
  else if String.eqb field "liquidity" then
    ((hpLiquidityAmount a - hpLiquidityAmount b) * direction)%Q
  else if String.eqb field "safetyScore" then
    ((getRiskScore a - getRiskScore b) * direction)%Q
  else 0%Q.

End FilterSort.

(** ** Array built-ins *)

Module JsArray.
Section Ops.
Context {A : Type}.

(** [Array.prototype.sort(cmp)] is stable: an element moves in front of
    another only if the comparator puts it strictly first.  For a
    comparator that is a consistent ordering the result is determined,
    and it is computed here by stable insertion from the right: [x],
    which precedes every element of [l] in the input, stays ahead of
    the elements it does not compare greater than. *)
Fixpoint insertBy (cmp : A -> A -> Q) (x : A) (l : list A) : list A :=
  match l with
  | [] => [x]
  | y :: l' =>
      if Qle_bool (cmp x y) 0%Q then x :: l else y :: insertBy cmp x l'
  end.

Definition sort (cmp : A -> A -> Q) (l : list A) : list A :=
  fold_right (insertBy cmp) [] l.

(** [l.slice(0, end)] for an integral [end]: a negative [end] counts
    from the end of the array. *)
Definition slice0 (l : list A) (end_ : Z) : list A :=
  let len := Z.of_nat (length l) in
  let final :=
    if (end_ <? 0)%Z then Z.max (len + end_) 0 else Z.min end_ len in
  firstn (Z.to_nat final) l.

(** [l[index]] for an integer index: [undefined] out of range. *)
Definition at_ (l : list A) (index : Z) : option A :=
  if (index <? 0)%Z then None else nth_error l (Z.to_nat index).

(** [l.findIndex(p)]: the first position at which [p] holds, or -1. *)
Fixpoint findIndexFrom (p : A -> bool) (l : list A) (i : Z) : Z :=
  match l with
  | [] => (-1)%Z
  | x :: l' => if p x then i else findIndexFrom p l' (i + 1)%Z
  end.

Definition findIndex (p : A -> bool) (l : list A) : Z :=
  findIndexFrom p l 0%Z.

(** [l.some(p)]. *)
Definition some (p : A -> bool) (l : list A) : bool := existsb p l.
End Ops.
End JsArray.

Section Engine.
Variable toLowerCase : string -> string.
Variable parseLpHolders : string -> option (list LpHolder).

(** The value of the [filteredTokens] memo: filter, sort, truncate.  The
    calls to [logDebug] and [props.onStatsChange] do not influence the
    returned array and are not modelled. *)
Definition filteredTokens (tokens : list Token) (currentFilters : FilterState)
  : list Token :=
  let result :=
    List.filter (tokenFilter toLowerCase parseLpHolders currentFilters) tokens in
  let result := JsArray.sort (compareTokens currentFilters) result in
  JsArray.slice0 result (maxRecords currentFilters).

(** The memo of the props-driven variant of the component. *)
Definition filteredTokensProps (tokens : list Token) (filters : FilterState)
  : list Token :=
  let result := List.filter (tokenFilterProps toLowerCase filters) tokens in
  let result := JsArray.sort (compareTokens filters) result in
  JsArray.slice0 result (maxRecords filters).
End Engine.

(** ** Trend estimator: [calculateTrend] *)

(** One element of a history array, as the estimator reads it.  Timestamps
    are numbers (milliseconds); the two measured values are doubles. *)
Record HistorySample := mkHistorySample {
  timestamp : Z;
  totalLiquidity : float;
  holderCount : float
}.

Inductive TrendType := liquidity | holders.
Inductive TrendValue := up | down | stagnant.

Module Trend.

(** [l.reduce((a, b) => a + b, 0)]. *)
Definition sum (l : list float) : float := fold_left PrimFloat.add l 0%float.

(** [[...history].sort((a, b) => a.timestamp - b.timestamp)]. *)
Definition sortedHistory (history : list HistorySample) : list HistorySample :=
  JsArray.sort (fun a b => inject_Z (timestamp a - timestamp b)) history.

(** The [y] component of [data]; the [x] component (a [Date]) is never
    read. *)
Definition selectY (type : TrendType) (record : HistorySample) : float :=
  match type with
  | liquidity => totalLiquidity record
  | holders => holderCount record
  end.

Definition yPoints (history : list HistorySample) (type : TrendType)
  : list float :=
  map (selectY type) (sortedHistory history).

(** An array index, or an array length, as a number.  The conversion is
    exact below 2^53, far above the length of any array. *)
Definition ofIndex (i : nat) : float :=
  PrimFloat.of_uint63 (Uint63.of_Z (Z.of_nat i)).

(** [data.map((_, i) => i)]. *)
Definition xPoints (n : nat) : list float := map ofIndex (seq 0 n).

Definition mean (l : list float) : float :=
  (sum l / ofIndex (length l))%float.

(** [Math.pow(d, 2)].  The argument is the difference of an index and the
    mean of the indices: an integer or a half-integer, whose square is a
    double (for fewer than 2^26 samples).  The power is that square, and so
    is the product. *)
Definition square (d : float) : float := (d * d)%float.

(** The numerator and the denominator of the slope: the two [reduce]
    calls, the first of which reads [yPoints[i]] at the index of [x]. *)
Definition covariance (xs ys : list float) : float :=
  let xMean := mean xs in
  let yMean := mean ys in
  fold_left (fun acc xy => (acc + (fst xy - xMean) * (snd xy - yMean))%float)
    (combine xs ys) 0%float.

Definition spread (xs : list float) : float :=
  let xMean := mean xs in
  fold_left (fun acc x => (acc + square (x - xMean))%float) xs 0%float.

Definition slope (ys : list float) : float :=
  let xs := xPoints (length ys) in
  (covariance xs ys / spread xs)%float.

Definition threshold : float := 0.05%float.

(** [Math.abs(slope) < threshold ? 'stagnant' : slope > 0 ? 'up' : 'down']. *)
Definition classify (slope : float) : TrendValue :=
  if (PrimFloat.abs slope <? threshold)%float then stagnant
  else if (0 <? slope)%float then up else down.

End Trend.

Definition calculateTrend (history : list HistorySample) (type : TrendType)
  : TrendValue :=
  if (length history <? 2)%nat then stagnant
  else Trend.classify (Trend.slope (Trend.yPoints history type)).

(** ** Row height model and expansion state *)

Definition COLLAPSED_HEIGHT : Q := 42%Q.
Definition EXPANDED_HEIGHT : Q := 800%Q.

(** Truthiness of a number: zero is falsy. *)
Definition truthyNumber (h : Q) : bool := negb (Qeq_bool h 0%Q).

Definition fallbackHeight (expandedTokens : gset string) (token : Token) : Q :=
  if bool_decide (tokenAddress token ∈ expandedTokens)
  then EXPANDED_HEIGHT else COLLAPSED_HEIGHT.

(** [estimateSize(index)], reading the three signals it depends on. *)
Definition estimateSize (filtered : list Token) (measuredHeights : gmap Z Q)
    (expandedTokens : gset string) (index : Z) : Q :=
  match JsArray.at_ filtered index with
  | None => COLLAPSED_HEIGHT
  | Some token =>
      match measuredHeights !! index with
      | Some measuredHeight =>
          if truthyNumber measuredHeight then measuredHeight
          else fallbackHeight expandedTokens token
      | None => fallbackHeight expandedTokens token
      end
  end.

(** [toggleTokenExpansion(tokenAddress)]. *)
Definition toggleTokenExpansion (tokenAddress : string) (prev : gset string)
  : gset string :=
  if bool_decide (tokenAddress ∈ prev) then prev ∖ {[tokenAddress]}
  else prev ∪ {[tokenAddress]}.

(** The state that [handleTokenClick] writes, and the calls it makes on the
    virtualizer.  A [ScrollToIndex] is issued inside a
    [requestAnimationFrame] callback, with [align: 'start'] and
    [behavior: 'smooth']. *)
Record ListState := mkListState {
  expandedTokens : gset string;
  measuredHeights : gmap Z Q
}.

Inductive VirtualizerCall :=
| Measure
| ScrollToIndex (index : Z).

(** [handleTokenClick(tokenAddress, e)] over the current value of the
    [filteredTokens] memo, which does not depend on the expansion set.  The
    result pairs the new state with the virtualizer calls in the order in
    which they are issued. *)
Definition handleTokenClick (filtered : list Token) (address : string)
    (st : ListState) : ListState * list VirtualizerCall :=
  let expanded := toggleTokenExpansion address (expandedTokens st) in
  let index :=
    JsArray.findIndex (fun t => String.eqb (tokenAddress t) address) filtered in
  let newHeights := delete index (measuredHeights st) in
  let st' := {| expandedTokens := expanded; measuredHeights := newHeights |} in
  (st', Measure :: (if (0 <=? index)%Z then [ScrollToIndex index] else [])).

(** The updater that the expand-all button passes to [setExpandedTokens]. *)
Definition toggleExpandAll (currentTokens : list Token) (prev : gset string)
  : gset string :=
  let hasExpanded :=
    JsArray.some (fun token => bool_decide (tokenAddress token ∈ prev))
      currentTokens in
  if hasExpanded then ∅ else list_to_set (map tokenAddress currentTokens).

(** ** History cache: [loadCachedHistories] *)

(** Outcome of a statement sequence that may throw. *)
Inductive Completion (A : Type) :=
| Normal (a : A)
| Throw.
Arguments Normal {A} a.
Arguments Throw {A}.

#[global] Instance Completion_ret : MRet Completion := fun A a => Normal a.

#[global] Instance Completion_bind : MBind Completion :=
  fun A B k c =>
    match c with
    | Normal a => k a
    | Throw => Throw
    end.

(** What the destructuring [{ timestamp, data }] yields on a parsed blob.
    [storedTimestamp] is the operand of the subtraction after conversion to
    a number ([None]: NaN, as for a missing field); [storedData] is [None]
    when the field is [undefined] or [null]. *)
Record CacheBlob := mkCacheBlob {
  storedTimestamp : option Z;
  storedData : option (gmap string (list HistorySample))
}.

Definition HISTORY_CACHE_EXPIRY : Z := 5 * 60 * 1000.

Section HistoryCache.

(** [JSON.parse] followed by the destructuring; [Throw] when the text is
    not JSON or the parsed value cannot be destructured. *)
Variable JSON_parse : string -> Completion CacheBlob.

(** [new Map(Object.entries(data))]; [Object.entries] throws on
    [undefined] and [null]. *)
Definition mapOfEntries (data : option (gmap string (list HistorySample)))
  : Completion (gmap string (list HistorySample)) :=
  match data with
  | Some entries => Normal entries
  | None => Throw
  end.

(** The body of the [try] block; [Normal None] when control leaves it
    without returning. *)
Definition tryLoad (stored : option string) (now : Z)
  : Completion (option (gmap string (list HistorySample))) :=
  match stored with
  | None => Normal None
  | Some cached =>
      if JsString.truthy cached then
        blob ← JSON_parse cached;
        match storedTimestamp blob with
        | Some timestamp =>
            if (now - timestamp <? HISTORY_CACHE_EXPIRY)%Z then
              histories ← mapOfEntries (storedData blob);
              Normal (Some histories)
            else Normal None
        | None => Normal None
        end
      else Normal None
  end.

(** [loadCachedHistories()], given the stored item and [Date.now()].  The
    [catch] clause logs and falls through to [return new Map()]. *)
Definition loadCachedHistories (stored : option string) (now : Z)
  : gmap string (list HistorySample) :=
  match tryLoad stored now with
  | Normal (Some histories) => histories
  | Normal None => ∅
  | Throw => ∅
  end.

End HistoryCache.

(** ** Persisted configuration: [getSavedFilters], [updateFilters] *)

Definition STORAGE_KEY : string := "tokenListFilters".
Definition DYNAMIC_SCALING_KEY : string := "chartDynamicScaling".

(** The object literal that [getSavedFilters] returns when nothing usable
    is stored. *)
Definition defaultFilters : FilterState :=
  {| minHolders := 0%Q; minLiquidity := 0%Q;
     hideHoneypots := false; showOnlyHoneypots := false;
     hideDanger := false; hideWarning := false; showOnlySafe := false;
     hideNotRenounced := false; hideUnlockedLiquidity := false;
     searchQuery := ""; sortBy := "age"; maxRecords := 50%Z |}.

(** The signals and the two pieces of the environment that [updateFilters]
    and the resize handler write: the [filters] signal, the
    [measuredHeights] signal ([heights]), the scroll offset of the
    container ([None] while [scrollContainerRef] is undefined) and
    [localStorage]. *)
Record FilterView := mkFilterView {
  filters : FilterState;
  heights : gmap Z Q;
  scrollTop : option Q;
  localStorage : gmap string string
}.

(** The argument of [updateFilters]: a new configuration or a function of
    the previous one. *)
Inductive FilterUpdate :=
| Replace (newFilters : FilterState)
| Modify (newFilters : FilterState -> FilterState).

Section SavedFilters.

(** [JSON.parse] on the stored text, read at the type [FilterState] as the
    return annotation of [getSavedFilters] does; [Throw]: the text is not
    JSON. *)
Variable JSON_parse : string -> Completion FilterState.

(** [JSON.stringify]. *)
Variable JSON_stringify : FilterState -> string.

(** [getSavedFilters()] on the current content of [localStorage]. *)
Definition getSavedFilters (storage : gmap string string) : FilterState :=
  match storage !! STORAGE_KEY with
  | Some saved =>
      if JsString.truthy saved then
        match JSON_parse saved with
        | Normal parsed => parsed
        | Throw => defaultFilters
        end
      else defaultFilters
  | None => defaultFilters
  end.

(** [updateFilters(newFilters)]: the updater passed to [setFilters]. *)
Definition updateFilters (newFilters : FilterUpdate) (view : FilterView)
  : FilterView :=
  let updated :=
    match newFilters with
    | Modify f => f (filters view)
    | Replace f => f
    end in
  {| filters := updated;
     heights := ∅;
     scrollTop :=
       match scrollTop view with
       | Some _ => Some 0%Q
       | None => None
       end;
     localStorage := <[STORAGE_KEY := JSON_stringify updated]> (localStorage view) |}.

End SavedFilters.

(** The initial value of the [isDynamicScaling] signal:
    [localStorage.getItem(DYNAMIC_SCALING_KEY) === 'true']. *)
Definition loadDynamicScaling (storage : gmap string string) : bool :=
  match storage !! DYNAMIC_SCALING_KEY with
  | Some saved => String.eqb saved "true"
  | None => false
  end.

(** The effect that stores [isDynamicScaling().toString()]. *)
Definition saveDynamicScaling (isDynamicScaling : bool)
    (storage : gmap string string) : gmap string string :=
  <[DYNAMIC_SCALING_KEY := if isDynamicScaling then "true" else "false"]> storage.

(** ** Measured heights: the [ResizeObserver] callback and [handleResize] *)

(** One observed element: its [data-index] attribute after
    [parseInt(... || '-1', 10)] and the height of its bounding rectangle.  A
    NaN index fails the test [index >= 0] as a negative one does. *)
Record ResizeEntry := mkResizeEntry {
  entryIndex : Z;
  entryHeight : Q
}.

(** [prevHeight !== currentHeight], where [prevHeight] is [undefined] when
    the index has no entry. *)
Definition heightDiffers (prevHeight : option Q) (currentHeight : Q) : bool :=
  match prevHeight with
  | Some prev => negb (Qeq_bool prev currentHeight)
  | None => true
  end.

(** One iteration of the loop over the entries, on the pair of [newHeights]
    and [needsRemeasure]. *)
Definition observeEntry (acc : gmap Z Q * bool) (entry : ResizeEntry)
  : gmap Z Q * bool :=
  let index := entryIndex entry in
  if (0 <=? index)%Z then
    let currentHeight := entryHeight entry in
    let prevHeight := fst acc !! index in
    if heightDiffers prevHeight currentHeight
    then (<[index := currentHeight]> (fst acc), true)
    else acc
  else acc.

(** The callback: the new value of [measuredHeights] and the calls made on
    the virtualizer.  The deferred assignment that puts the scroll offset
    back to the value read before the update is not represented. *)
Definition onResizeEntries (measured : gmap Z Q) (entries : list ResizeEntry)
  : gmap Z Q * list VirtualizerCall :=
  let result := fold_left observeEntry entries (measured, false) in
  if snd result then (fst result, [Measure]) else (measured, []).

(** [handleResize()]: every measurement is dropped and the virtualizer
    re-measures; the scroll offset is put back afterwards. *)
Definition handleResize (view : FilterView) : FilterView * list VirtualizerCall :=
  ({| filters := filters view;
      heights := ∅;
      scrollTop := scrollTop view;
      localStorage := localStorage view |}, [Measure]).

(** ** Positions: [calculatePositions] and [totalHeight] *)

(** [calculatePositions()]: the loop state is the map and
    [currentPosition]. *)
Definition positionStep (expanded : gset string)
    (acc : gmap string Q * Q) (token : Token) : gmap string Q * Q :=
  (<[tokenAddress token := snd acc]> (fst acc),
   (snd acc + fallbackHeight expanded token)%Q).

Definition calculatePositions (filtered : list Token) (expanded : gset string)
  : gmap string Q :=
  fst (fold_left (positionStep expanded) filtered (∅, 0%Q)).

(** The [totalHeight] memo. *)
Definition totalHeight (filtered : list Token) (expanded : gset string) : Q :=
  fold_left (fun height token => (height + fallbackHeight expanded token)%Q)
    filtered 0%Q.

(** ** Trend store and history fetches *)

(** The value type of the [tokenTrends] map. *)
Record TrendPair := mkTrendPair {
  liquidityTrend : TrendValue;
  holdersTrend : TrendValue
}.

Record HistoryStore := mkHistoryStore {
  tokenHistories : gmap string (list HistorySample);
  tokenTrends : gmap string TrendPair
}.

(** [updateTokenTrends(tokenAddress, history)] on the [tokenTrends] map. *)
Definition updateTokenTrends (address : string) (history : list HistorySample)
    (trends : gmap string TrendPair) : gmap string TrendPair :=
  let liquidityTrend := calculateTrend history liquidity in
  let holdersTrend := calculateTrend history holders in
  <[address := {| liquidityTrend := liquidityTrend;
                  holdersTrend := holdersTrend |}]> trends.

(** What the two [await]s of [fetchTokenHistory] deliver.  [Throw]: the
    request or the decoding of the body fails.  [Normal None]: the body has
    no [history] array, on which the function throws by itself. *)
Definition FetchOutcome : Type := Completion (option (list HistorySample)).

(** The part of [fetchTokenHistory(tokenAddress)] that runs once the
    response has arrived; the [catch] clause only logs. *)
Definition fetchResolved (address : string) (outcome : FetchOutcome)
    (store : HistoryStore) : HistoryStore :=
  match outcome with
  | Normal (Some history) =>
      {| tokenHistories := <[address := history]> (tokenHistories store);
         tokenTrends := updateTokenTrends address history (tokenTrends store) |}
  | Normal None => store
  | Throw => store
  end.

(** The [trends] accessor of [CompactRow]. *)
Definition displayedTrends (trends : gmap string TrendPair) (token : Token)
  : TrendPair :=
  match trends !! tokenAddress token with
  | Some stored => stored
  | None => {| liquidityTrend := stagnant; holdersTrend := stagnant |}
  end.

(** [Array.from(new Set(l))]: the distinct elements of [l] in the order of
    their first occurrence. *)
Fixpoint distinctFrom {A} `{EqDecision A} (seen l : list A) : list A :=
  match l with
  | [] => []
  | x :: l' =>
      if decide (x ∈ seen) then distinctFrom seen l'
      else x :: distinctFrom (x :: seen) l'
  end.

Definition distinct {A} `{EqDecision A} (l : list A) : list A :=
  distinctFrom [] l.

(** The effect that fetches the history of the visible tokens: the
    addresses for which it calls [fetchTokenHistory], in call order.
    [rows] are the indices of the virtual items; [None] is the [undefined]
    that [token?.tokenAddress] gives for an index with no token. *)
Definition tokensToFetch (filtered : list Token)
    (histories : gmap string (list HistorySample)) (rows : list Z)
  : list string :=
  let visibleTokens := map (JsArray.at_ filtered) rows in
  let uniqueTokens :=
    distinct (map (fun token => option_map tokenAddress token) visibleTokens) in
  flat_map
    (fun tokenAddress =>
       match tokenAddress with
       | Some address =>
           if JsString.truthy address
              && negb (bool_decide (is_Some (histories !! address)))
           then [address] else []
       | None => []
       end)
    uniqueTokens.

(** The store together with the requests that have been issued and have
    not resolved yet. *)
Record FetchState := mkFetchState {
  store : HistoryStore;
  inFlight : list string
}.

(** The two events of the fetch cycle.  The effect may run at any time, on
    the token list and the virtual rows of that moment; a pending request
    may resolve at any time, with any outcome. *)
Inductive fetchStep : FetchState -> FetchState -> Prop :=
| effectRuns (filtered : list Token) (rows : list Z) (st : FetchState) :
    fetchStep st
      {| store := store st;
         inFlight :=
           inFlight st
           ++ tokensToFetch filtered (tokenHistories (store st)) rows |}
| requestResolves (address : string) (outcome : FetchOutcome)
    (pending pending' : list string) (current : HistoryStore) :
    fetchStep
      {| store := current; inFlight := pending ++ address :: pending' |}
      {| store := fetchResolved address outcome current;
         inFlight := pending ++ pending' |}.

(** The state of the component right after initialisation. *)
Definition initialFetchState (cache : gmap string (list HistorySample))
  : FetchState :=
  {| store := {| tokenHistories := cache; tokenTrends := ∅ |};
     inFlight := [] |}.

(** * Vocabulary of the properties *)

(** ** Orderings of a sequence *)

Definition ascendingOn {A} (key : A -> Q) (l : list A) : Prop :=
  StronglySorted (fun a b => (key a <= key b)%Q) l.

Definition descendingOn {A} (key : A -> Q) (l : list A) : Prop :=
  StronglySorted (fun a b => (key b <= key a)%Q) l.

(** ** Shapes of a series of y-values *)


Definition strictlyDecreasing (ys : list float) : Prop :=
  forall i a b, nth_error ys i = Some a -> nth_error ys (S i) = Some b ->
                (b <? a)%float = true.

Definition constantSeries (ys : list float) : Prop :=
  exists c, forall i y, nth_error ys i = Some y -> (y =? c)%float = true.

(** ** Doubles and their specification *)

(** [x] is NaN, on the specification side. *)
Definition isNaN (x : float) : Prop := Prim2SF x = S754_nan.

(** ** Concrete inputs used by the examples below *)

Module Sample.

(** A parser that recognises no lock descriptor at all. *)
Definition noLocks (descriptor : string) : option (list LpHolder) := None.

Definition token (address name : string) (ageHours holderCount : Q)
    (risk : RiskLevel) (honeypot : bool) : Token :=
  {| tokenAddress := address; tokenName := name; tokenSymbol := name;
     tokenAgeHours := ageHours; gpHolderCount := holderCount;
     hpLiquidityAmount := 1000%Q; hpIsHoneypot := honeypot;
     riskLevel := risk; gpOwnerAddress := ZERO_ADDRESS;
     gpLpHolders := "" |}.

(** The defaults of [getSavedFilters]. *)
Definition defaults : FilterState :=
  {| minHolders := 0%Q; minLiquidity := 0%Q;
     hideHoneypots := false; showOnlyHoneypots := false;
     hideDanger := false; hideWarning := false; showOnlySafe := false;
     hideNotRenounced := false; hideUnlockedLiquidity := false;
     searchQuery := ""; sortBy := "age"; maxRecords := 50%Z |}.

Definition withSortBy (field : string) : FilterState :=
  {| minHolders := 0%Q; minLiquidity := 0%Q;
     hideHoneypots := false; showOnlyHoneypots := false;
     hideDanger := false; hideWarning := false; showOnlySafe := false;
     hideNotRenounced := false; hideUnlockedLiquidity := false;
     searchQuery := ""; sortBy := field; maxRecords := 50%Z |}.

(** Hide dangerous tokens and search for "pepe". *)
Definition hideDangerSearch : FilterState :=
  {| minHolders := 0%Q; minLiquidity := 0%Q;
     hideHoneypots := false; showOnlyHoneypots := false;
     hideDanger := true; hideWarning := false; showOnlySafe := false;
     hideNotRenounced := false; hideUnlockedLiquidity := false;
     searchQuery := "pepe"; sortBy := "age"; maxRecords := 50%Z |}.

Definition bothHoneypotToggles : FilterState :=
  {| minHolders := 0%Q; minLiquidity := 0%Q;
     hideHoneypots := true; showOnlyHoneypots := true;
     hideDanger := false; hideWarning := false; showOnlySafe := false;
     hideNotRenounced := false; hideUnlockedLiquidity := false;
     searchQuery := ""; sortBy := "age"; maxRecords := 50%Z |}.

(** The defaults with a negative record limit, as a hand-edited persisted
    configuration can have. *)
Definition negativeLimit : FilterState :=
  {| minHolders := 0%Q; minLiquidity := 0%Q;
     hideHoneypots := false; showOnlyHoneypots := false;
     hideDanger := false; hideWarning := false; showOnlySafe := false;
     hideNotRenounced := false; hideUnlockedLiquidity := false;
     searchQuery := ""; sortBy := "age"; maxRecords := (-1)%Z |}.

Definition pepe : Token := token "0xAA" "Pepe" 2 50 danger false.
Definition doge : Token := token "0xBB" "Doge" 1 5 safe true.
Definition shib : Token := token "0xCC" "Shib" 3 7 warning false.

(** Liquidity creeping up by one cent per sample; holders flat. *)
Definition slowGrowth : list HistorySample :=
  [ {| timestamp := 1000; totalLiquidity := 1000%float;
       holderCount := 10%float |};
    {| timestamp := 2000; totalLiquidity := 1000.01%float;
       holderCount := 10%float |};
    {| timestamp := 3000; totalLiquidity := 1000.02%float;
       holderCount := 10%float |} ].

(** Liquidity draining by one cent per sample; an unchanging and very large
    holder count. *)
Definition slowDrain : list HistorySample :=
  [ {| timestamp := 1000; totalLiquidity := 1000.02%float;
       holderCount := 1e308%float |};
    {| timestamp := 2000; totalLiquidity := 1000.01%float;
       holderCount := 1e308%float |};
    {| timestamp := 3000; totalLiquidity := 1000%float;
       holderCount := 1e308%float |} ].

(** Holders growing; samples out of time order. *)
Definition growth : list HistorySample :=
  [ {| timestamp := 3000; totalLiquidity := 900%float;
       holderCount := 8%float |};
    {| timestamp := 1000; totalLiquidity := 1000%float;
       holderCount := 5%float |};
    {| timestamp := 2000; totalLiquidity := 950%float;
       holderCount := 6%float |} ].

Definition growthByTime : list HistorySample :=
  [ {| timestamp := 1000; totalLiquidity := 1000%float;
       holderCount := 5%float |};
    {| timestamp := 2000; totalLiquidity := 950%float;
       holderCount := 6%float |};
    {| timestamp := 3000; totalLiquidity := 900%float;
       holderCount := 8%float |} ].

(** A history whose second sample lacks a holder count. *)
Definition gappy : list HistorySample :=
  [ {| timestamp := 1000; totalLiquidity := 1000%float;
       holderCount := 5%float |};
    {| timestamp := 2000; totalLiquidity := 1010%float;
       holderCount := nan |};
    {| timestamp := 3000; totalLiquidity := 1020%float;
       holderCount := 9%float |} ].

(** A parser that accepts the one text "blob": a cache written at time
    1000000 with the history of one token. *)
Definition cachedEntries : gmap string (list HistorySample) :=
  {[ "0xAA" := growth ]}.

Definition parseBlob (text : string) : Completion CacheBlob :=
  if String.eqb text "blob" then
    Normal {| storedTimestamp := Some 1000000%Z;
              storedData := Some cachedEntries |}
  else Throw.

End Sample.

Module SampleView.

Definition filtered : list Token := [Sample.pepe; Sample.doge; Sample.shib].

(** Three measured rows, none expanded. *)
Definition state : ListState :=
  {| expandedTokens := ∅;
     measuredHeights := <[0%Z := 42%Q]> (<[1%Z := 50%Q]> {[2%Z := 42%Q]}) |}.

End SampleView.

(** ** Vocabulary of the further properties *)

(** The pair that [updateTokenTrends] stores for a history. *)
Definition trendsOf (history : list HistorySample) : TrendPair :=
  {| liquidityTrend := calculateTrend history liquidity;
     holdersTrend := calculateTrend history holders |}.

(** Every stored pair of trends belongs to the stored history of the same
    address. *)
Definition storeConsistent (current : HistoryStore) : Prop :=
  forall address stored,
    tokenTrends current !! address = Some stored ->
    exists history,
      tokenHistories current !! address = Some history /\
      stored = trendsOf history.

(** The body of the loop of the fetch effect, as a list of the addresses
    it requests for one element of [uniqueTokens]. *)
Definition fetchable (histories : gmap string (list HistorySample))
    (tokenAddress : option string) : list string :=
  match tokenAddress with
  | Some address =>
      if JsString.truthy address
         && negb (bool_decide (is_Some (histories !! address)))
      then [address] else []
  | None => []
  end.

(** No cached address is requested, replaced or given trends. *)
Definition cacheUntouched (cache : gmap string (list HistorySample))
    (st : FetchState) : Prop :=
  (forall address, address ∈ inFlight st -> cache !! address = None) /\
  (forall address, is_Some (cache !! address) ->
     tokenHistories (store st) !! address = cache !! address /\
     tokenTrends (store st) !! address = None).

(** A fixed token against which the others are measured. *)
Definition referenceToken : Token :=
  {| tokenAddress := ""; tokenName := ""; tokenSymbol := "";
     tokenAgeHours := 0%Q; gpHolderCount := 0%Q; hpLiquidityAmount := 0%Q;
     hpIsHoneypot := false; riskLevel := safe; gpOwnerAddress := "";
     gpLpHolders := "" |}.

(** The key by which [compareTokens F] orders. *)
Definition sortKey (F : FilterState) (token : Token) : Q :=
  compareTokens F token referenceToken.

(** The text handed to [JSON.parse]: [token.gpLpHolders || '[]']. *)
Definition lockDescriptor (token : Token) : string :=
  if JsString.truthy (gpLpHolders token) then gpLpHolders token else "[]".

(** ** Further concrete inputs *)

Module Scenario.

(** The defaults with dangerous tokens hidden. *)
Definition hideDangerOnly : FilterState :=
  {| minHolders := 0%Q; minLiquidity := 0%Q;
     hideHoneypots := false; showOnlyHoneypots := false;
     hideDanger := true; hideWarning := false; showOnlySafe := false;
     hideNotRenounced := false; hideUnlockedLiquidity := false;
     searchQuery := ""; sortBy := "age"; maxRecords := 50%Z |}.

(** A parser that knows three lock descriptors. *)
Definition parseLocks (descriptor : string) : option (list LpHolder) :=
  if String.eqb descriptor "[]" then Some []
  else if String.eqb descriptor "unlocked" then
    Some [ {| is_locked := false; percent := 0.5%float |};
           {| is_locked := false; percent := 0.45%float |} ]
  else if String.eqb descriptor "unreadable" then
    Some [ {| is_locked := true; percent := nan |};
           {| is_locked := true; percent := 0.1%float |} ]
  else None.

Definition withLocks (descriptor : string) : Token :=
  {| tokenAddress := "0xDD"; tokenName := "Lock"; tokenSymbol := "LCK";
     tokenAgeHours := 4%Q; gpHolderCount := 20%Q;
     hpLiquidityAmount := 1000%Q; hpIsHoneypot := false;
     riskLevel := safe; gpOwnerAddress := ZERO_ADDRESS;
     gpLpHolders := descriptor |}.

(** A serialiser and a parser that agree on one configuration. *)
Definition stringifySaved (F : FilterState) : string := "saved".

Definition parseSaved (text : string) : Completion FilterState :=
  if String.eqb text "saved" then Normal Sample.hideDangerSearch else Throw.

Definition view : FilterView :=
  {| filters := Sample.defaults;
     heights := {[ 0%Z := 42%Q ]};
     scrollTop := Some 120%Q;
     localStorage := ∅ |}.

(** A report of three rows: the second one grew to 60. *)
Definition firstReport : ResizeEntry :=
  {| entryIndex := 0; entryHeight := 42%Q |}.
Definition grownRow : ResizeEntry :=
  {| entryIndex := 1; entryHeight := 60%Q |}.
Definition lastReport : ResizeEntry :=
  {| entryIndex := 2; entryHeight := 42%Q |}.

(** A report that repeats what is stored for the second row. *)
Definition sameRow : ResizeEntry :=
  {| entryIndex := 1; entryHeight := 50%Q |}.

(** The store before anything was fetched, and the state after the effect
    ran on the first two rows and the first request resolved. *)
Definition emptyStore : HistoryStore :=
  {| tokenHistories := ∅; tokenTrends := ∅ |}.

Definition afterFirstFetch : FetchState :=
  {| store := fetchResolved "0xAA" (Normal (Some Sample.growth)) emptyStore;
     inFlight := ["0xBB"] |}.

(** The same with the history of the first token already in the cache:
    the effect requests the two others, and the second token's request
    resolves. *)
Definition cachedStore : HistoryStore :=
  {| tokenHistories := Sample.cachedEntries; tokenTrends := ∅ |}.

Definition afterCachedRun : FetchState :=
  {| store := fetchResolved "0xBB" (Normal (Some Sample.slowGrowth)) cachedStore;
     inFlight := ["0xCC"] |}.

End Scenario.

(** * Properties *)

(** ** Comparisons *)

Lemma Qltb_lt x y : Qltb x y = true <-> (x < y)%Q.
Proof.
  unfold Qltb. rewrite negb_true_iff.
  split.
  - intros H. apply Qnot_le_lt. intros Hle.
    apply Qle_bool_iff in Hle. congruence.
  - intros H. destruct (Qle_bool y x) eqn:E; [|reflexivity].
    apply Qle_bool_iff in E. lra.
Qed.

Lemma Qltb_ge x y : Qltb x y = false <-> (y <= x)%Q.
Proof.
  unfold Qltb. rewrite negb_false_iff. apply Qle_bool_iff.
Qed.

(** ** The filter predicate *)

Section FilterFacts.
Variable toLowerCase : string -> string.
Variable parseLpHolders : string -> option (list LpHolder).

Lemma truthy_nonempty s : JsString.truthy s = true <-> s <> "".
Proof. destruct s; simpl; split; congruence. Qed.

Lemma RiskLevel_eqb_eq a b : RiskLevel_eqb a b = true <-> a = b.
Proof. destruct a, b; simpl; split; congruence. Qed.

(** The props-driven variant is the main predicate with the ownership and
    lock toggles off. *)
Lemma tokenFilterProps_tokenFilter F token :
  hideNotRenounced F = false ->
  hideUnlockedLiquidity F = false ->
  tokenFilterProps toLowerCase F token =
  tokenFilter toLowerCase parseLpHolders F token.
Proof.
  intros Hr Hu. unfold tokenFilterProps, tokenFilter.
  rewrite Hr, Hu. reflexivity.
Qed.

(** With both honeypot toggles on, the first two tests reject every
    token. *)
Lemma tokenFilter_both_honeypot_toggles F token :
  hideHoneypots F = true ->
  showOnlyHoneypots F = true ->
  tokenFilter toLowerCase parseLpHolders F token = false.
Proof.
  intros Hh Hs. unfold tokenFilter. rewrite Hh, Hs.
  destruct (hpIsHoneypot token); reflexivity.
Qed.

End FilterFacts.

Section ChainOfTests.

Lemma reject_else (b c : bool) :
  (if b then false else c) = true <-> b = false /\ c = true.
Proof. destruct b; simpl; intuition congruence. Qed.

Lemma andb_false_not (x y : bool) (P : Prop) :
  (y = true <-> P) -> (x && y = false <-> ~ (x = true /\ P)).
Proof.
  intros HP. destruct x, y; simpl; intuition congruence.
Qed.

End ChainOfTests.

(** C1, as stated, fails.  With [hideDanger] set and the query "pepe", the
    dangerous token named "Pepe" matches the query and is still rejected:
    the risk test precedes the search test in the chain. *)
Lemma search_match_does_not_bypass_hideDanger :
  searchQuery Sample.hideDangerSearch <> "" /\
  searchToken JsString.asciiToLowerCase Sample.pepe
    (searchQuery Sample.hideDangerSearch) = true /\
  tokenFilter JsString.asciiToLowerCase Sample.noLocks
    Sample.hideDangerSearch Sample.pepe = false.
Proof. split; [discriminate | split; reflexivity]. Qed.

(** The same token is rejected by the props-driven variant. *)
Example props_variant_rejects_matching_danger_token :
  tokenFilterProps JsString.asciiToLowerCase
    Sample.hideDangerSearch Sample.pepe = false.
Proof. reflexivity. Qed.

(** C1 (amended).  For a non-empty [searchQuery], the search test is the
    last test of the chain and bypasses none: a token is accepted exactly
    when none of the honeypot, risk, ownership, liquidity-lock, holder and
    liquidity tests rejects it and its name, symbol or address contains the
    query, case-insensitively. *)
Theorem search_is_final_test_of_chain
    (toLowerCase : string -> string)
    (parseLpHolders : string -> option (list LpHolder))
    (F : FilterState) (token : Token) :
  searchQuery F <> "" ->
  tokenFilter toLowerCase parseLpHolders F token = true <->
    ~ (hideHoneypots F = true /\ hpIsHoneypot token = true) /\
    ~ (showOnlyHoneypots F = true /\ hpIsHoneypot token = false) /\
    ~ (hideDanger F = true /\ riskLevel token = danger) /\
    ~ (hideWarning F = true /\ riskLevel token = warning) /\
    ~ (showOnlySafe F = true /\ riskLevel token <> safe) /\
    ~ (hideNotRenounced F = true /\ gpOwnerAddress token <> ZERO_ADDRESS) /\
    ~ (hideUnlockedLiquidity F = true /\
       rejectsUnlocked parseLpHolders token = true) /\
    ~ (0 < minHolders F /\ gpHolderCount token < minHolders F)%Q /\
    ~ (0 < minLiquidity F /\ hpLiquidityAmount token < minLiquidity F)%Q /\
    searchToken toLowerCase token (searchQuery F) = true.
Proof.
  intros Hq. apply truthy_nonempty in Hq.
  unfold tokenFilter. rewrite Hq, !reject_else.
  rewrite (andb_false_not (hideHoneypots F) _ (hpIsHoneypot token = true))
    by reflexivity.
  rewrite (andb_false_not (showOnlyHoneypots F) _ (hpIsHoneypot token = false))
    by apply negb_true_iff.
  rewrite (andb_false_not (hideDanger F) _ (riskLevel token = danger))
    by apply RiskLevel_eqb_eq.
  rewrite (andb_false_not (hideWarning F) _ (riskLevel token = warning))
    by apply RiskLevel_eqb_eq.
  rewrite (andb_false_not (showOnlySafe F) _ (riskLevel token <> safe))
    by (rewrite negb_true_iff, <- not_true_iff_false, RiskLevel_eqb_eq;
        reflexivity).
  rewrite (andb_false_not (hideNotRenounced F) _
             (gpOwnerAddress token <> ZERO_ADDRESS))
    by (rewrite negb_true_iff; apply String.eqb_neq).
  rewrite (andb_false_not (hideUnlockedLiquidity F) _
             (rejectsUnlocked parseLpHolders token = true))
    by reflexivity.
  rewrite (andb_false_not (Qltb 0 (minHolders F)) _
             (gpHolderCount token < minHolders F)%Q)
    by apply Qltb_lt.
  rewrite (andb_false_not (Qltb 0 (minLiquidity F)) _
             (hpLiquidityAmount token < minLiquidity F)%Q)
    by apply Qltb_lt.
  rewrite !Qltb_lt. tauto.
Qed.

(** C1, instantiated: the query "pepe" under [hideDanger]. *)
Lemma search_is_final_test_of_chain_witness :
  searchQuery Sample.hideDangerSearch <> "" /\
  (tokenFilter JsString.asciiToLowerCase Sample.noLocks
     Sample.hideDangerSearch Sample.pepe = true <->
   ~ (hideHoneypots Sample.hideDangerSearch = true /\
      hpIsHoneypot Sample.pepe = true) /\
   ~ (showOnlyHoneypots Sample.hideDangerSearch = true /\
      hpIsHoneypot Sample.pepe = false) /\
   ~ (hideDanger Sample.hideDangerSearch = true /\
      riskLevel Sample.pepe = danger) /\
   ~ (hideWarning Sample.hideDangerSearch = true /\
      riskLevel Sample.pepe = warning) /\
   ~ (showOnlySafe Sample.hideDangerSearch = true /\
      riskLevel Sample.pepe <> safe) /\
   ~ (hideNotRenounced Sample.hideDangerSearch = true /\
      gpOwnerAddress Sample.pepe <> ZERO_ADDRESS) /\
   ~ (hideUnlockedLiquidity Sample.hideDangerSearch = true /\
      rejectsUnlocked Sample.noLocks Sample.pepe = true) /\
   ~ (0 < minHolders Sample.hideDangerSearch /\
      gpHolderCount Sample.pepe < minHolders Sample.hideDangerSearch)%Q /\
   ~ (0 < minLiquidity Sample.hideDangerSearch /\
      hpLiquidityAmount Sample.pepe < minLiquidity Sample.hideDangerSearch)%Q /\
   searchToken JsString.asciiToLowerCase Sample.pepe
     (searchQuery Sample.hideDangerSearch) = true).
Proof.
  split.
  - discriminate.
  - apply (search_is_final_test_of_chain JsString.asciiToLowerCase
             Sample.noLocks Sample.hideDangerSearch Sample.pepe).
    discriminate.
Defined.

(** ** Sorting and truncation *)

Section SortFacts.
Context {A : Type}.
Implicit Types (l : list A) (cmp : A -> A -> Q).

Lemma insertBy_Permutation cmp x l :
  Permutation (JsArray.insertBy cmp x l) (x :: l).
Proof.
  induction l as [|y l IH]; simpl.
  - reflexivity.
  - destruct (Qle_bool (cmp x y) 0).
    + reflexivity.
    + rewrite IH. apply perm_swap.
Qed.

Lemma sort_Permutation cmp l : Permutation (JsArray.sort cmp l) l.
Proof.
  induction l as [|x l IH]; simpl.
  - reflexivity.
  - rewrite insertBy_Permutation. now constructor.
Qed.

Lemma sort_length cmp l : length (JsArray.sort cmp l) = length l.
Proof. apply Permutation_length, sort_Permutation. Qed.

Lemma slice0_take l e : exists k, JsArray.slice0 l e = take k l.
Proof. unfold JsArray.slice0. eauto. Qed.

Lemma slice0_sublist l e : sublist (JsArray.slice0 l e) l.
Proof. destruct (slice0_take l e) as [k ->]. apply sublist_take. Qed.

Lemma slice0_length l e :
  (0 <= e)%Z -> (Z.of_nat (length (JsArray.slice0 l e)) <= e)%Z.
Proof.
  intros He. unfold JsArray.slice0.
  destruct (Z.ltb_spec e 0); [lia|].
  rewrite length_take. lia.
Qed.

Lemma filter_sublist (f : A -> bool) l : sublist (List.filter f l) l.
Proof.
  induction l as [|x l IH]; simpl.
  - constructor.
  - destruct (f x); now constructor.
Qed.

Lemma filter_all_false (f : A -> bool) l :
  (forall x, f x = false) -> List.filter f l = [].
Proof.
  intros Hf. induction l as [|x l IH]; simpl; [reflexivity|].
  now rewrite Hf.
Qed.

Lemma StronglySorted_take (R : A -> A -> Prop) l k :
  StronglySorted R l -> StronglySorted R (take k l).
Proof.
  intros Hs. revert k.
  induction Hs as [|a l Hs IH Hall]; intros [|k]; simpl; try constructor.
  - apply IH.
  - now apply Forall_take.
Qed.

(** A comparator that orders by a numeric key. *)
Section ByKey.
Variable key : A -> Q.
Variable cmp : A -> A -> Q.
Hypothesis cmp_key : forall a b, (cmp a b <= 0)%Q <-> (key a <= key b)%Q.

Lemma insertBy_ascending x l :
  ascendingOn key l -> ascendingOn key (JsArray.insertBy cmp x l).
Proof.
  unfold ascendingOn.
  induction 1 as [|y l Hs IH Hall]; simpl.
  - repeat constructor.
  - destruct (Qle_bool (cmp x y) 0) eqn:E.
    + apply Qle_bool_iff, cmp_key in E.
      constructor; [now constructor|].
      constructor; [exact E|].
      eapply Forall_impl; [exact Hall|].
      simpl. intros z Hz. lra.
    + assert (Hyx : (key y <= key x)%Q).
      { destruct (Qlt_le_dec (key y) (key x)) as [Hlt|Hle].
        - lra.
        - apply cmp_key, Qle_bool_iff in Hle. congruence. }
      constructor; [exact IH|].
      eapply Permutation_Forall.
      * symmetry. apply insertBy_Permutation.
      * now constructor.
Qed.

Lemma sort_ascending l : ascendingOn key (JsArray.sort cmp l).
Proof.
  induction l as [|x l IH]; simpl.
  - constructor.
  - now apply insertBy_ascending.
Qed.

End ByKey.

End SortFacts.

Lemma descendingOn_opp {A} (key : A -> Q) (l : list A) :
  ascendingOn (fun a => (- key a)%Q) l -> descendingOn key l.
Proof.
  unfold ascendingOn, descendingOn.
  induction 1 as [|a l Hs IH Hall]; constructor; [exact IH|].
  eapply Forall_impl; [exact Hall|]. simpl. intros b Hb. lra.
Qed.

Section EngineFacts.
Variable toLowerCase : string -> string.
Variable parseLpHolders : string -> option (list LpHolder).

Local Abbreviation engine := (filteredTokens toLowerCase parseLpHolders).

(** The output is a prefix of the stably sorted survivors of the filter. *)
Lemma filteredTokens_take tokens F :
  exists k,
    engine tokens F =
    take k (JsArray.sort (compareTokens F)
              (List.filter (tokenFilter toLowerCase parseLpHolders F) tokens)).
Proof. unfold filteredTokens. apply slice0_take. Qed.

Lemma filteredTokens_ascending (key : Token -> Q) tokens F :
  (forall a b, (compareTokens F a b <= 0)%Q <-> (key a <= key b)%Q) ->
  ascendingOn key (engine tokens F).
Proof.
  intros Hkey. destruct (filteredTokens_take tokens F) as [k ->].
  apply StronglySorted_take. now apply sort_ascending.
Qed.

Lemma filteredTokens_descending (key : Token -> Q) tokens F :
  (forall a b, (compareTokens F a b <= 0)%Q <-> (key b <= key a)%Q) ->
  descendingOn key (engine tokens F).
Proof.
  intros Hkey. apply descendingOn_opp, filteredTokens_ascending.
  intros a b. rewrite Hkey. split; intros; lra.
Qed.

Lemma filteredTokens_submseteq tokens F : engine tokens F ⊆+ tokens.
Proof.
  unfold filteredTokens.
  etransitivity; [apply sublist_submseteq, slice0_sublist|].
  etransitivity; [apply Permutation_submseteq, sort_Permutation|].
  apply sublist_submseteq, filter_sublist.
Qed.

(** The props-driven memo sorts with the same comparator. *)
Lemma filteredTokensProps_ascending (key : Token -> Q) tokens F :
  (forall a b, (compareTokens F a b <= 0)%Q <-> (key a <= key b)%Q) ->
  ascendingOn key (filteredTokensProps toLowerCase tokens F).
Proof.
  intros Hkey. unfold filteredTokensProps.
  destruct (slice0_take
              (JsArray.sort (compareTokens F)
                 (List.filter (tokenFilterProps toLowerCase F) tokens))
              (maxRecords F)) as [k ->].
  apply StronglySorted_take. now apply sort_ascending.
Qed.

End EngineFacts.

(** The comparator, for each value offered by the sort selector. *)
Section Comparator.
Variables (F : FilterState) (a b : Token).

Lemma compareTokens_age :
  sortBy F = "age" ->
  compareTokens F a b = ((tokenAgeHours b - tokenAgeHours a) * -1)%Q.
Proof. intros H. unfold compareTokens. now rewrite H. Qed.

Lemma compareTokens_age_asc :
  sortBy F = "age_asc" ->
  compareTokens F a b = ((tokenAgeHours b - tokenAgeHours a) * 1)%Q.
Proof. intros H. unfold compareTokens. now rewrite H. Qed.

Lemma compareTokens_holders :
  sortBy F = "holders" ->
  compareTokens F a b = ((gpHolderCount a - gpHolderCount b) * -1)%Q.
Proof. intros H. unfold compareTokens. now rewrite H. Qed.

Lemma compareTokens_holders_asc :
  sortBy F = "holders_asc" ->
  compareTokens F a b = ((gpHolderCount a - gpHolderCount b) * 1)%Q.
Proof. intros H. unfold compareTokens. now rewrite H. Qed.

Lemma compareTokens_liquidity :
  sortBy F = "liquidity" ->
  compareTokens F a b = ((hpLiquidityAmount a - hpLiquidityAmount b) * -1)%Q.
Proof. intros H. unfold compareTokens. now rewrite H. Qed.

Lemma compareTokens_liquidity_asc :
  sortBy F = "liquidity_asc" ->
  compareTokens F a b = ((hpLiquidityAmount a - hpLiquidityAmount b) * 1)%Q.
Proof. intros H. unfold compareTokens. now rewrite H. Qed.

Lemma compareTokens_safetyScore :
  sortBy F = "safetyScore" ->
  compareTokens F a b = ((getRiskScore a - getRiskScore b) * -1)%Q.
Proof. intros H. unfold compareTokens. now rewrite H. Qed.

Lemma compareTokens_safetyScore_asc :
  sortBy F = "safetyScore_asc" ->
  compareTokens F a b = ((getRiskScore a - getRiskScore b) * 1)%Q.
Proof. intros H. unfold compareTokens. now rewrite H. Qed.

End Comparator.

(** C2, as stated, fails for "age".  With the default [sortBy = "age"] the
    one-hour-old token comes before the two-hour-old one: the output is not
    in descending order of [tokenAgeHours]. *)
Lemma sort_by_age_is_not_descending_age :
  sortBy Sample.defaults = "age" /\
  ~ descendingOn tokenAgeHours
      (filteredTokens JsString.asciiToLowerCase Sample.noLocks
         [Sample.pepe; Sample.doge] Sample.defaults).
Proof.
  split; [reflexivity|].
  change (filteredTokens JsString.asciiToLowerCase Sample.noLocks
            [Sample.pepe; Sample.doge] Sample.defaults)
    with [Sample.doge; Sample.pepe].
  unfold descendingOn. intros Hs.
  apply StronglySorted_inv in Hs as [_ Hall].
  apply Forall_cons in Hall as [Hle _].
  revert Hle. compute. intros Hle. apply Hle. reflexivity.
Qed.

(** C2 (amended).  The comparator's default direction yields descending
    order on holder count, liquidity and safety score, and the [_asc] suffix
    yields ascending order on them.  For the age field the operands are
    swapped: "age" yields ascending [tokenAgeHours] (newest first) and
    "age_asc" yields descending [tokenAgeHours] (oldest first). *)
Theorem sort_order_by_field
    (toLowerCase : string -> string)
    (parseLpHolders : string -> option (list LpHolder))
    (tokens : list Token) (F : FilterState) :
  let output := filteredTokens toLowerCase parseLpHolders tokens F in
  (sortBy F = "age" -> ascendingOn tokenAgeHours output) /\
  (sortBy F = "age_asc" -> descendingOn tokenAgeHours output) /\
  (sortBy F = "holders" -> descendingOn gpHolderCount output) /\
  (sortBy F = "holders_asc" -> ascendingOn gpHolderCount output) /\
  (sortBy F = "liquidity" -> descendingOn hpLiquidityAmount output) /\
  (sortBy F = "liquidity_asc" -> ascendingOn hpLiquidityAmount output) /\
  (sortBy F = "safetyScore" -> descendingOn getRiskScore output) /\
  (sortBy F = "safetyScore_asc" -> ascendingOn getRiskScore output).
Proof.
  intros output. unfold output.
  repeat split; intros HsortBy.
  - apply filteredTokens_ascending. intros a b.
    rewrite (compareTokens_age F a b HsortBy). split; intros; lra.
  - apply filteredTokens_descending. intros a b.
    rewrite (compareTokens_age_asc F a b HsortBy). split; intros; lra.
  - apply filteredTokens_descending. intros a b.
    rewrite (compareTokens_holders F a b HsortBy). split; intros; lra.
  - apply filteredTokens_ascending. intros a b.
    rewrite (compareTokens_holders_asc F a b HsortBy). split; intros; lra.
  - apply filteredTokens_descending. intros a b.
    rewrite (compareTokens_liquidity F a b HsortBy). split; intros; lra.
  - apply filteredTokens_ascending. intros a b.
    rewrite (compareTokens_liquidity_asc F a b HsortBy). split; intros; lra.
  - apply filteredTokens_descending. intros a b.
    rewrite (compareTokens_safetyScore F a b HsortBy). split; intros; lra.
  - apply filteredTokens_ascending. intros a b.
    rewrite (compareTokens_safetyScore_asc F a b HsortBy). split; intros; lra.
Qed.

(** C2, instantiated on the default configuration. *)
Lemma sort_order_by_field_witness :
  sortBy Sample.defaults = "age" /\
  ascendingOn tokenAgeHours
    (filteredTokens JsString.asciiToLowerCase Sample.noLocks
       [Sample.pepe; Sample.doge; Sample.shib] Sample.defaults).
Proof.
  split.
  - reflexivity.
  - apply (proj1 (sort_order_by_field JsString.asciiToLowerCase Sample.noLocks
                    [Sample.pepe; Sample.doge; Sample.shib] Sample.defaults)).
    reflexivity.
Defined.

(** C3, as stated, fails on both counts.  The sort reorders: on the input
    [pepe; doge] (ages 2 and 1) the default configuration returns
    [doge; pepe], which is not a subsequence of the input.  A negative
    [maxRecords] counts from the end of the sorted array: with
    [maxRecords = -1] three tokens give an output of length 2. *)
Lemma output_not_subsequence_nor_bounded :
  ~ sublist
      (filteredTokens JsString.asciiToLowerCase Sample.noLocks
         [Sample.pepe; Sample.doge] Sample.defaults)
      [Sample.pepe; Sample.doge] /\
  ~ (Z.of_nat
       (length (filteredTokens JsString.asciiToLowerCase Sample.noLocks
                  [Sample.pepe; Sample.doge; Sample.shib]
                  Sample.negativeLimit))
     <= maxRecords Sample.negativeLimit)%Z.
Proof.
  split.
  - change (filteredTokens JsString.asciiToLowerCase Sample.noLocks
              [Sample.pepe; Sample.doge] Sample.defaults)
      with [Sample.doge; Sample.pepe].
    intros H. apply sublist_cons_r in H as [H | (l' & Heq & _)].
    + apply sublist_length in H. simpl in H. lia.
    + discriminate Heq.
  - change (filteredTokens JsString.asciiToLowerCase Sample.noLocks
              [Sample.pepe; Sample.doge; Sample.shib] Sample.negativeLimit)
      with [Sample.doge; Sample.pepe].
    simpl. lia.
Qed.

(** C3 (amended).  The output is a reordering of a subsequence of the input:
    every entry of the output is an entry of the input, with no greater
    multiplicity.  When [maxRecords] is non-negative, the output has at most
    [maxRecords] entries. *)
Theorem output_within_input_and_bounded
    (toLowerCase : string -> string)
    (parseLpHolders : string -> option (list LpHolder))
    (tokens : list Token) (F : FilterState) :
  let output := filteredTokens toLowerCase parseLpHolders tokens F in
  (exists kept, Permutation output kept /\ sublist kept tokens) /\
  ((0 <= maxRecords F)%Z -> (Z.of_nat (length output) <= maxRecords F)%Z).
Proof.
  intros output. split.
  - apply submseteq_sublist_r, filteredTokens_submseteq.
  - intros Hmax. unfold output, filteredTokens. now apply slice0_length.
Qed.

(** C3, instantiated on three tokens and the default limit of 50. *)
Lemma output_within_input_and_bounded_witness :
  (0 <= maxRecords Sample.defaults)%Z /\
  (Z.of_nat
     (length (filteredTokens JsString.asciiToLowerCase Sample.noLocks
                [Sample.pepe; Sample.doge; Sample.shib] Sample.defaults))
   <= maxRecords Sample.defaults)%Z.
Proof.
  split.
  - simpl. lia.
  - apply (proj2 (output_within_input_and_bounded JsString.asciiToLowerCase
                    Sample.noLocks [Sample.pepe; Sample.doge; Sample.shib]
                    Sample.defaults)).
    simpl. lia.
Defined.

(** C6.  With [hideHoneypots] and [showOnlyHoneypots] both set, the output
    is empty whatever the tokens and the other settings are. *)
Theorem contradictory_honeypot_toggles_empty
    (toLowerCase : string -> string)
    (parseLpHolders : string -> option (list LpHolder))
    (tokens : list Token) (F : FilterState) :
  hideHoneypots F = true ->
  showOnlyHoneypots F = true ->
  filteredTokens toLowerCase parseLpHolders tokens F = [].
Proof.
  intros Hhide Hshow. unfold filteredTokens.
  rewrite filter_all_false.
  - unfold JsArray.slice0. simpl. now rewrite take_nil.
  - intros token. now apply tokenFilter_both_honeypot_toggles.
Qed.

(** C6, instantiated on a list with a honeypot and two other tokens. *)
Lemma contradictory_honeypot_toggles_empty_witness :
  hideHoneypots Sample.bothHoneypotToggles = true /\
  showOnlyHoneypots Sample.bothHoneypotToggles = true /\
  filteredTokens JsString.asciiToLowerCase Sample.noLocks
    [Sample.pepe; Sample.doge; Sample.shib] Sample.bothHoneypotToggles = [].
Proof.
  split; [reflexivity|]. split; [reflexivity|].
  apply (contradictory_honeypot_toggles_empty JsString.asciiToLowerCase
           Sample.noLocks [Sample.pepe; Sample.doge; Sample.shib]
           Sample.bothHoneypotToggles); reflexivity.
Defined.

(** The props-driven memo agrees with the main one when the two toggles it
    lacks are off. *)
Lemma filteredTokensProps_filteredTokens
    (toLowerCase : string -> string)
    (parseLpHolders : string -> option (list LpHolder))
    (tokens : list Token) (F : FilterState) :
  hideNotRenounced F = false ->
  hideUnlockedLiquidity F = false ->
  filteredTokensProps toLowerCase tokens F =
  filteredTokens toLowerCase parseLpHolders tokens F.
Proof.
  intros Hr Hu. unfold filteredTokensProps, filteredTokens.
  f_equal. f_equal. apply filter_ext. intros token.
  now apply tokenFilterProps_tokenFilter.
Qed.

(** ** Expansion state *)

Lemma some_exists {A} (p : A -> bool) (l : list A) :
  JsArray.some p l = true <-> exists x, In x l /\ p x = true.
Proof. apply existsb_exists. Qed.

(** C7.  If some currently filtered token is expanded, the bulk operation
    empties the expansion set; otherwise the new expansion set consists of
    exactly the addresses of the currently filtered tokens. *)
Theorem expand_all_is_asymmetric
    (currentTokens : list Token) (prev : gset string) :
  ((exists token, In token currentTokens /\ tokenAddress token ∈ prev) ->
   toggleExpandAll currentTokens prev = ∅) /\
  ((forall token, In token currentTokens -> tokenAddress token ∉ prev) ->
   forall address,
     address ∈ toggleExpandAll currentTokens prev <->
     exists token, In token currentTokens /\ tokenAddress token = address).
Proof.
  unfold toggleExpandAll. split.
  - intros (token & Hin & Hexp).
    assert (Hsome : JsArray.some
              (fun token => bool_decide (tokenAddress token ∈ prev))
              currentTokens = true).
    { apply some_exists. exists token. split; [exact Hin|].
      now apply bool_decide_eq_true. }
    now rewrite Hsome.
  - intros Hnone address.
    destruct (JsArray.some _ currentTokens) eqn:Hsome.
    + apply some_exists in Hsome as (token & Hin & Hexp).
      apply bool_decide_eq_true in Hexp. now apply Hnone in Hexp.
    + rewrite elem_of_list_to_set, list_elem_of_In, in_map_iff.
      split; intros (token & H1 & H2); exists token; tauto.
Qed.

(** C7, instantiated on the scenario of the specification: three filtered
    tokens, one of them expanded. *)
Lemma expand_all_is_asymmetric_witness :
  (exists token,
     In token [Sample.pepe; Sample.doge; Sample.shib] /\
     tokenAddress token ∈ ({["0xBB"]} : gset string)) /\
  toggleExpandAll [Sample.pepe; Sample.doge; Sample.shib] {["0xBB"]} = ∅.
Proof.
  assert (Hex : exists token,
             In token [Sample.pepe; Sample.doge; Sample.shib] /\
             tokenAddress token ∈ ({["0xBB"]} : gset string)).
  { exists Sample.doge. split.
    - simpl. right. left. reflexivity.
    - apply elem_of_singleton. reflexivity. }
  split.
  - exact Hex.
  - apply (proj1 (expand_all_is_asymmetric
                    [Sample.pepe; Sample.doge; Sample.shib] {["0xBB"]})).
    exact Hex.
Defined.

(** ** Toggling one row *)

Lemma findIndexFrom_found {A} (p : A -> bool) (l : list A) (i : Z) :
  (exists x, In x l /\ p x = true) ->
  let r := JsArray.findIndexFrom p l i in
  (i <= r < i + Z.of_nat (length l))%Z /\
  (exists x, nth_error l (Z.to_nat (r - i)) = Some x /\ p x = true) /\
  (forall k y, (k < Z.to_nat (r - i))%nat -> nth_error l k = Some y ->
               p y = false).
Proof.
  revert i. induction l as [|a l IH]; intros i (x & Hin & Hp); simpl.
  - destruct Hin.
  - destruct (p a) eqn:Hpa.
    + split; [lia|]. replace (i - i)%Z with 0%Z by lia. simpl.
      split; [eauto|]. intros k y Hk. lia.
    + destruct Hin as [-> | Hin]; [congruence|].
      destruct (IH (i + 1)%Z) as (Hr & (y & Hy & Hpy) & Hfirst); [eauto|].
      set (r := JsArray.findIndexFrom p l (i + 1)) in *.
      split; [lia|].
      replace (Z.to_nat (r - i)) with (S (Z.to_nat (r - (i + 1)))) by lia.
      simpl. split; [eauto|].
      intros [|k] z Hk Hz; simpl in Hz.
      * congruence.
      * apply (Hfirst k z); [lia | exact Hz].
Qed.

Lemma findIndex_found {A} (p : A -> bool) (l : list A) :
  (exists x, In x l /\ p x = true) ->
  let index := JsArray.findIndex p l in
  (0 <= index)%Z /\
  (exists x, JsArray.at_ l index = Some x /\ p x = true) /\
  (forall j y, (0 <= j < index)%Z -> JsArray.at_ l j = Some y -> p y = false).
Proof.
  intros Hex. unfold JsArray.findIndex.
  destruct (findIndexFrom_found p l 0 Hex) as (Hr & (x & Hx & Hp) & Hfirst).
  set (r := JsArray.findIndexFrom p l 0) in *. simpl.
  rewrite Z.sub_0_r in *.
  split; [lia|]. split.
  - exists x. unfold JsArray.at_.
    destruct (Z.ltb_spec r 0); [lia|]. tauto.
  - intros j y Hj. unfold JsArray.at_.
    destruct (Z.ltb_spec j 0); [lia|].
    apply Hfirst. lia.
Qed.

(** C8.  Toggling the expansion of a token that is in the filtered
    sequence removes the measured height stored at the token's view index
    (the first position carrying its address), keeps the entry of every
    other index, and issues, after the re-measure, one scroll-to-index call
    for that index. *)
Theorem toggle_invalidates_own_height_and_scrolls
    (filtered : list Token) (address : string) (st : ListState) :
  (exists token, In token filtered /\ tokenAddress token = address) ->
  let index :=
    JsArray.findIndex (fun t => String.eqb (tokenAddress t) address) filtered in
  let st' := fst (handleTokenClick filtered address st) in
  let calls := snd (handleTokenClick filtered address st) in
  (exists token,
     JsArray.at_ filtered index = Some token /\ tokenAddress token = address) /\
  measuredHeights st' !! index = None /\
  (forall j, j <> index -> measuredHeights st' !! j = measuredHeights st !! j) /\
  calls = [Measure; ScrollToIndex index] /\
  expandedTokens st' = toggleTokenExpansion address (expandedTokens st).
Proof.
  intros (token & Hin & Haddr) index st' calls.
  destruct (findIndex_found
              (fun t => String.eqb (tokenAddress t) address) filtered)
    as (Hidx & (x & Hx & Hpx) & _).
  { exists token. split; [exact Hin|]. now apply String.eqb_eq. }
  fold index in Hidx, Hx.
  split; [|split; [|split; [|split]]].
  - exists x. split; [exact Hx|]. now apply String.eqb_eq.
  - apply lookup_delete_eq.
  - intros j Hj. apply lookup_delete_ne. intros Heq. apply Hj. now symmetry.
  - unfold calls, handleTokenClick. simpl. fold index.
    destruct (Z.leb_spec 0 index); [reflexivity|lia].
  - reflexivity.
Qed.

(** C8, instantiated: a click on the second of three rows. *)
Lemma toggle_invalidates_own_height_and_scrolls_witness :
  (exists token,
     In token SampleView.filtered /\ tokenAddress token = "0xBB") /\
  measuredHeights
    (fst (handleTokenClick SampleView.filtered "0xBB" SampleView.state))
    !! 1%Z = None /\
  (forall j, j <> 1%Z ->
     measuredHeights
       (fst (handleTokenClick SampleView.filtered "0xBB" SampleView.state))
       !! j = measuredHeights SampleView.state !! j) /\
  snd (handleTokenClick SampleView.filtered "0xBB" SampleView.state)
  = [Measure; ScrollToIndex 1].
Proof.
  assert (Hex : exists token,
             In token SampleView.filtered /\ tokenAddress token = "0xBB").
  { exists Sample.doge. split; [simpl; right; left|]; reflexivity. }
  split; [exact Hex|].
  destruct (toggle_invalidates_own_height_and_scrolls
              SampleView.filtered "0xBB" SampleView.state Hex)
    as (_ & Hgone & Hframe & Hcalls & _).
  split; [exact Hgone|]. split; [exact Hframe|]. exact Hcalls.
Defined.

(** ** Row heights *)

Lemma truthyNumber_nonzero h : truthyNumber h = true <-> ~ (h == 0)%Q.
Proof.
  unfold truthyNumber. rewrite negb_true_iff, <- not_true_iff_false.
  now rewrite Qeq_bool_iff.
Qed.

Lemma at_None {A} (l : list A) (index : Z) :
  JsArray.at_ l index = None <->
  (index < 0 \/ Z.of_nat (length l) <= index)%Z.
Proof.
  unfold JsArray.at_. destruct (Z.ltb_spec index 0).
  - split; [lia|reflexivity].
  - rewrite nth_error_None. lia.
Qed.

(** C10.  [estimateSize] returns 42 at every index that holds no token
    (negative, or past the end of the filtered sequence).  At an index that
    holds a token, a stored measurement equal to zero is ignored and the
    row gets 800 if the token is expanded and 42 otherwise, as it does with
    no stored measurement; a stored measurement other than zero is returned
    unchanged. *)
Theorem estimateSize_by_cases
    (filtered : list Token) (measured : gmap Z Q) (expanded : gset string)
    (index : Z) :
  let size := estimateSize filtered measured expanded index in
  ((index < 0 \/ Z.of_nat (length filtered) <= index)%Z -> size = 42%Q) /\
  (forall token, JsArray.at_ filtered index = Some token ->
     (forall h, measured !! index = Some h -> ~ (h == 0)%Q -> size = h) /\
     ((measured !! index = None \/
       exists h, measured !! index = Some h /\ (h == 0)%Q) ->
      (tokenAddress token ∈ expanded -> size = 800%Q) /\
      (tokenAddress token ∉ expanded -> size = 42%Q))).
Proof.
  intros size. unfold size, estimateSize. split.
  - intros Hout. apply at_None in Hout. now rewrite Hout.
  - intros token ->. split.
    + intros h -> Hh. apply truthyNumber_nonzero in Hh. now rewrite Hh.
    + intros Hm.
      assert (Hfall :
        match measured !! index with
        | Some measuredHeight =>
            if truthyNumber measuredHeight then measuredHeight
            else fallbackHeight expanded token
        | None => fallbackHeight expanded token
        end = fallbackHeight expanded token).
      { destruct Hm as [-> | (h & -> & Hh)]; [reflexivity|].
        destruct (truthyNumber h) eqn:E; [|reflexivity].
        apply truthyNumber_nonzero in E. contradiction. }
      rewrite Hfall. unfold fallbackHeight. split; intros Hexp.
      * now rewrite bool_decide_eq_true_2.
      * now rewrite bool_decide_eq_false_2.
Qed.

(** C10, instantiated: an expanded first row whose stored height is 0. *)
Lemma estimateSize_by_cases_witness :
  JsArray.at_ [Sample.pepe] 0 = Some Sample.pepe /\
  ({[0%Z := 0%Q]} : gmap Z Q) !! 0%Z = Some 0%Q /\
  tokenAddress Sample.pepe ∈ ({["0xAA"]} : gset string) /\
  estimateSize [Sample.pepe] {[0%Z := 0%Q]} {["0xAA"]} 0 = 800%Q.
Proof.
  assert (Hin : tokenAddress Sample.pepe ∈ ({["0xAA"]} : gset string)).
  { apply elem_of_singleton. reflexivity. }
  split; [reflexivity|]. split; [reflexivity|]. split; [exact Hin|].
  destruct (estimateSize_by_cases [Sample.pepe] {[0%Z := 0%Q]} {["0xAA"]} 0)
    as [_ Hat].
  destruct (Hat Sample.pepe eq_refl) as [_ Hzero].
  apply Hzero.
  - right. exists 0%Q. split; reflexivity.
  - exact Hin.
Defined.

(** ** History cache *)

Section HistoryCacheFacts.
Variable JSON_parse : string -> Completion CacheBlob.

Lemma tryLoad_Some stored now histories :
  tryLoad JSON_parse stored now = Normal (Some histories) ->
  exists cached blob ts,
    stored = Some cached /\ cached <> "" /\
    JSON_parse cached = Normal blob /\
    storedTimestamp blob = Some ts /\
    (now - ts < HISTORY_CACHE_EXPIRY)%Z /\
    storedData blob = Some histories.
Proof.
  unfold tryLoad. destruct stored as [cached|]; [|discriminate].
  destruct (JsString.truthy cached) eqn:Ht; [|discriminate].
  destruct (JSON_parse cached) as [blob|] eqn:Hp; [|discriminate].
  simpl. destruct (storedTimestamp blob) as [ts|] eqn:Hts; [|discriminate].
  destruct (Z.ltb_spec (now - ts) HISTORY_CACHE_EXPIRY); [|discriminate].
  destruct (storedData blob) as [data|] eqn:Hd; [|discriminate].
  simpl. intros [= <-].
  exists cached, blob, ts. apply truthy_nonempty in Ht. tauto.
Qed.

End HistoryCacheFacts.

(** C9.  The load returns the stored mapping when the blob parses and is
    less than five minutes old, and it returns a non-empty mapping only
    then.  A blob that is five minutes old or older, and a blob on which
    parsing throws, give the empty cache; whatever is thrown inside the
    [try] block ends in the empty cache. *)
Theorem history_cache_load_on_init
    (JSON_parse : string -> Completion CacheBlob)
    (stored : option string) (now : Z) :
  let loaded := loadCachedHistories JSON_parse stored now in
  (forall cached blob ts data,
     stored = Some cached -> cached <> "" ->
     JSON_parse cached = Normal blob ->
     storedTimestamp blob = Some ts -> storedData blob = Some data ->
     (now - ts < 5 * 60 * 1000)%Z ->
     loaded = data) /\
  (loaded <> ∅ ->
   exists cached blob ts,
     stored = Some cached /\ JSON_parse cached = Normal blob /\
     storedTimestamp blob = Some ts /\ (now - ts < 5 * 60 * 1000)%Z /\
     storedData blob = Some loaded) /\
  (forall cached blob ts,
     stored = Some cached -> JSON_parse cached = Normal blob ->
     storedTimestamp blob = Some ts -> (5 * 60 * 1000 <= now - ts)%Z ->
     loaded = ∅) /\
  (forall cached,
     stored = Some cached -> JSON_parse cached = Throw -> loaded = ∅) /\
  (tryLoad JSON_parse stored now = Throw -> loaded = ∅).
Proof.
  intros loaded. unfold loaded, loadCachedHistories.
  split; [|split; [|split; [|split]]].
  - intros cached blob ts data -> Hne Hp Hts Hd Hfresh.
    apply truthy_nonempty in Hne.
    unfold tryLoad. rewrite Hne, Hp. simpl. rewrite Hts.
    destruct (Z.ltb_spec (now - ts) HISTORY_CACHE_EXPIRY) as [_|Hge].
    + now rewrite Hd.
    + unfold HISTORY_CACHE_EXPIRY in Hge. lia.
  - destruct (tryLoad JSON_parse stored now) as [[histories|]|] eqn:Hload;
      try congruence.
    intros _.
    apply tryLoad_Some in Hload
      as (cached & blob & ts & Hs & _ & Hp & Hts & Hfresh & Hd).
    exists cached, blob, ts. unfold HISTORY_CACHE_EXPIRY in Hfresh. tauto.
  - intros cached blob ts -> Hp Hts Hstale.
    unfold tryLoad. destruct (JsString.truthy cached); [|reflexivity].
    rewrite Hp. simpl. rewrite Hts.
    destruct (Z.ltb_spec (now - ts) HISTORY_CACHE_EXPIRY) as [Hlt|_];
      [|reflexivity].
    unfold HISTORY_CACHE_EXPIRY in Hlt. lia.
  - intros cached -> Hp.
    unfold tryLoad. destruct (JsString.truthy cached); [|reflexivity].
    now rewrite Hp.
  - now intros ->.
Qed.

(** C9, instantiated on the scenario of the specification: a blob stored
    six minutes before the load. *)
Lemma history_cache_load_on_init_witness :
  Sample.parseBlob "blob"
  = Normal {| storedTimestamp := Some 1000000%Z;
              storedData := Some Sample.cachedEntries |} /\
  (5 * 60 * 1000 <= (1000000 + 6 * 60 * 1000) - 1000000)%Z /\
  loadCachedHistories Sample.parseBlob (Some "blob")
    (1000000 + 6 * 60 * 1000) = ∅.
Proof.
  split; [reflexivity|]. split; [lia|].
  destruct (history_cache_load_on_init Sample.parseBlob (Some "blob")
              (1000000 + 6 * 60 * 1000))
    as (_ & _ & Hstale & _).
  apply (Hstale "blob"
           {| storedTimestamp := Some 1000000%Z;
              storedData := Some Sample.cachedEntries |}
           1000000%Z); [reflexivity | reflexivity | reflexivity | lia].
Defined.

(** The same blob, loaded four minutes after it was stored, is used. *)
Example history_cache_fresh_blob_is_used :
  loadCachedHistories Sample.parseBlob (Some "blob")
    (1000000 + 4 * 60 * 1000) = Sample.cachedEntries.
Proof. reflexivity. Qed.

(** A text that does not parse gives the empty cache. *)
Example history_cache_malformed_blob_is_empty :
  loadCachedHistories Sample.parseBlob (Some "{not json") 1000000 = ∅.
Proof. reflexivity. Qed.

(** ** Doubles *)

(** The comparisons and the arithmetic of the doubles are read through
    their specification ([Prim2SF]): a double is a signed zero, a signed
    infinity, NaN, or a finite number given by sign, mantissa and
    exponent. *)

Lemma SFcompare_refl (x : spec_float) :
  x <> S754_nan -> SFcompare x x = Some Eq.
Proof.
  destruct x as [s|s| |s m e]; intros Hx; simpl.
  - reflexivity.
  - now destruct s.
  - congruence.
  - destruct s; now rewrite Z.compare_refl, Pos.compare_cont_refl.
Qed.

Lemma is_nan_isNaN (x : float) : is_nan x = true <-> isNaN x.
Proof.
  unfold is_nan, isNaN. rewrite FloatAxioms.eqb_spec. unfold SFeqb. split.
  - intros Hx. destruct (Prim2SF x) as [s|s| |s m e] eqn:Hspec;
      try reflexivity; rewrite SFcompare_refl in Hx; discriminate.
  - now intros ->.
Qed.

Lemma add_NaN (x y : float) : isNaN x \/ isNaN y -> isNaN (x + y).
Proof.
  unfold isNaN. rewrite FloatAxioms.add_spec. intros [-> | ->].
  - reflexivity.
  - now destruct (Prim2SF x).
Qed.

Lemma sub_NaN (x y : float) : isNaN x \/ isNaN y -> isNaN (x - y).
Proof.
  unfold isNaN. rewrite FloatAxioms.sub_spec. intros [-> | ->].
  - reflexivity.
  - now destruct (Prim2SF x).
Qed.

Lemma mul_NaN (x y : float) : isNaN x \/ isNaN y -> isNaN (x * y).
Proof.
  unfold isNaN. rewrite FloatAxioms.mul_spec. intros [-> | ->].
  - reflexivity.
  - now destruct (Prim2SF x).
Qed.

Lemma div_NaN (x y : float) : isNaN x \/ isNaN y -> isNaN (x / y).
Proof.
  unfold isNaN. rewrite FloatAxioms.div_spec. intros [-> | ->].
  - reflexivity.
  - now destruct (Prim2SF x).
Qed.

Lemma abs_NaN (x : float) : isNaN x -> isNaN (PrimFloat.abs x).
Proof. unfold isNaN. rewrite FloatAxioms.abs_spec. now intros ->. Qed.

(** Every comparison with NaN is false. *)
Lemma ltb_NaN (x y : float) : isNaN x \/ isNaN y -> (x <? y)%float = false.
Proof.
  unfold isNaN. rewrite FloatAxioms.ltb_spec. unfold SFltb. intros [-> | ->].
  - reflexivity.
  - now destruct (Prim2SF x).
Qed.

(** A reducer whose every result is NaN. *)
Lemma fold_left_always_NaN {A} (f : float -> A -> float) (l : list A)
    (start : float) :
  (forall acc a, In a l -> isNaN (f acc a)) -> l <> [] ->
  isNaN (fold_left f l start).
Proof.
  revert start. induction l as [|a l IH]; intros start Hf Hl; [congruence|].
  simpl. destruct l as [|b l].
  - simpl. apply Hf. now left.
  - apply IH; [|discriminate]. intros acc c Hc. apply Hf. now right.
Qed.

(** A reducer that keeps NaN and that some element turns into NaN. *)
Lemma fold_left_some_NaN {A} (f : float -> A -> float) (bad : A -> Prop)
    (l : list A) (start : float) :
  (forall acc a, isNaN acc -> isNaN (f acc a)) ->
  (forall acc a, bad a -> isNaN (f acc a)) ->
  isNaN start \/ (exists a, In a l /\ bad a) ->
  isNaN (fold_left f l start).
Proof.
  intros Hkeep Hbad. revert start.
  induction l as [|a l IH]; intros start [Hstart | (b & Hin & Hb)]; simpl.
  - exact Hstart.
  - destruct Hin.
  - apply IH. left. now apply Hkeep.
  - destruct Hin as [-> | Hin].
    + apply IH. left. now apply Hbad.
    + apply IH. right. eauto.
Qed.

(** *** The three-way test on the specification side *)

Section ThreeWayTest.
Variables (m0 : positive) (e0 : Z).

(** The threshold: any positive finite number. *)
Local Abbreviation t := (S754_finite false m0 e0).




End ThreeWayTest.

(** ** Trend estimator *)




Lemma classify_NaN (s : float) : isNaN s -> Trend.classify s = down.
Proof.
  intros Hs. unfold Trend.classify.
  rewrite (ltb_NaN (PrimFloat.abs s) Trend.threshold)
    by (left; now apply abs_NaN).
  now rewrite (ltb_NaN 0 s) by now right.
Qed.

Lemma yPoints_length history type :
  length (Trend.yPoints history type) = length history.
Proof.
  unfold Trend.yPoints, Trend.sortedHistory.
  now rewrite length_map, sort_length.
Qed.

Lemma sum_NaN (l : list float) :
  (exists y, In y l /\ isNaN y) -> isNaN (Trend.sum l).
Proof.
  intros Hl. unfold Trend.sum.
  apply (fold_left_some_NaN PrimFloat.add isNaN).
  - intros acc a Hacc. apply add_NaN. now left.
  - intros acc a Ha. apply add_NaN. now right.
  - now right.
Qed.

Lemma xPoints_length n : length (Trend.xPoints n) = n.
Proof. unfold Trend.xPoints. now rewrite length_map, length_seq. Qed.

(** One NaN among at least one value makes the slope NaN: the mean of the
    values is NaN, and so is every term of the numerator. *)
Lemma slope_NaN (ys : list float) :
  (exists y, In y ys /\ isNaN y) -> isNaN (Trend.slope ys).
Proof.
  intros Hys. unfold Trend.slope. apply div_NaN. left.
  unfold Trend.covariance. apply fold_left_always_NaN.
  - intros acc xy _. apply add_NaN. right. apply mul_NaN. right.
    apply sub_NaN. right. unfold Trend.mean. apply div_NaN. left.
    now apply sum_NaN.
  - destruct Hys as (y & Hin & _). intros Hnil.
    apply (f_equal (@length _)) in Hnil.
    rewrite length_combine, xPoints_length, Nat.min_id in Hnil.
    destruct ys; [destruct Hin | discriminate].
Qed.



(** The same for a strictly decreasing series: the liquidity of
    [Sample.slowDrain] (1000.02, 1000.01, 1000) is stagnant, not down. *)
Example strictly_decreasing_and_stagnant :
  strictlyDecreasing (Trend.yPoints Sample.slowDrain liquidity) /\
  calculateTrend Sample.slowDrain liquidity = stagnant.
Proof.
  split; [|reflexivity].
  change (Trend.yPoints Sample.slowDrain liquidity)
    with [1000.02; 1000.01; 1000]%float.
  intros [|[|[|i]]] a b Ha Hb; simpl in Ha, Hb;
    try discriminate; injection Ha as <-; injection Hb as <-; reflexivity.
Qed.

(** A constant series is not always stagnant either: the sum of the three
    holder counts 1e308 of [Sample.slowDrain] overflows to infinity, the
    mean is infinite, the numerator of the slope is NaN, both comparisons of
    the classification fail and the estimator returns down. *)
Example constant_and_down :
  constantSeries (Trend.yPoints Sample.slowDrain holders) /\
  is_nan (Trend.slope (Trend.yPoints Sample.slowDrain holders)) = true /\
  calculateTrend Sample.slowDrain holders = down.
Proof.
  split; [|split; reflexivity].
  exists 1e308%float.
  change (Trend.yPoints Sample.slowDrain holders)
    with [1e308; 1e308; 1e308]%float.
  intros [|[|[|[|i]]]] y Hy; simpl in Hy;
    try discriminate; injection Hy as <-; reflexivity.
Qed.

(** Nor do steps of the size of the threshold force an answer.  From 1000
    to 1000.05 the computed slope is 0.049999999999954525 and the estimator
    returns stagnant; from 1e308 to 1.5e308 the sum overflows, the slope is
    NaN and the estimator returns down. *)
Example steps_of_the_threshold_do_not_force_up :
  Trend.classify (Trend.slope [1000; 1000.05]%float) = stagnant /\
  Trend.classify (Trend.slope [1e308; 1.5e308]%float) = down.
Proof. split; reflexivity. Qed.


(** ** The re-sort makes the estimator independent of arrival order *)

Section SortDeterminism.
Context {A : Type}.
Variable key : A -> Q.
Local Open Scope Q_scope.

(** Two ascending arrangements of the same elements coincide when the
    key separates the elements. *)
Lemma ascending_unique (l1 l2 : list A) :
  (forall a b, In a l1 -> In b l1 -> key a == key b -> a = b) ->
  ascendingOn key l1 -> ascendingOn key l2 -> Permutation l1 l2 ->
  l1 = l2.
Proof.
  unfold ascendingOn. revert l2.
  induction l1 as [|a l1 IH]; intros l2 Hinj H1 H2 Hp.
  - apply Permutation_nil in Hp. now subst.
  - destruct l2 as [|b l2].
    + symmetry in Hp. now apply Permutation_nil_cons in Hp.
    + apply StronglySorted_inv in H1 as [H1 Ha].
      apply StronglySorted_inv in H2 as [H2 Hb].
      rewrite List.Forall_forall in Ha, Hb.
      assert (Hab : a = b).
      { assert (Hain : In a (b :: l2))
          by (eapply Permutation_in; [exact Hp | now left]).
        assert (Hbin : In b (a :: l1))
          by (eapply Permutation_in; [symmetry; exact Hp | now left]).
        destruct Hain as [Heq | Hain]; [now symmetry|].
        destruct Hbin as [Heq | Hbin]; [now symmetry|].
        apply Hinj; [now left | now right |].
        pose proof (Ha b Hbin). pose proof (Hb a Hain). lra. }
      subst b. f_equal.
      apply IH; try assumption.
      * intros x y Hx Hy. apply Hinj; now right.
      * now apply Permutation_cons_inv in Hp.
Qed.

End SortDeterminism.

Lemma NoDup_map_injective {A B} (f : A -> B) (l : list A) a b :
  List.NoDup (map f l) -> In a l -> In b l -> f a = f b -> a = b.
Proof.
  induction l as [|x l IH]; simpl; intros Hnd Ha Hb Hf; [contradiction|].
  apply List.NoDup_cons_iff in Hnd as [Hx Hnd].
  destruct Ha as [-> | Ha], Hb as [-> | Hb].
  - reflexivity.
  - exfalso. apply Hx. rewrite Hf. now apply in_map.
  - exfalso. apply Hx. rewrite <- Hf. now apply in_map.
  - now apply IH.
Qed.

Lemma sortedHistory_ascending history :
  ascendingOn (fun r => inject_Z (timestamp r)) (Trend.sortedHistory history).
Proof.
  unfold Trend.sortedHistory. apply sort_ascending.
  intros a b. change 0%Q with (inject_Z 0). rewrite <- !Zle_Qle. lia.
Qed.

Lemma sortedHistory_permutation_invariant history history' :
  Permutation history history' ->
  List.NoDup (map timestamp history) ->
  Trend.sortedHistory history' = Trend.sortedHistory history.
Proof.
  intros Hp Hnd. symmetry.
  apply (ascending_unique (fun r => inject_Z (timestamp r))).
  - intros a b Ha Hb Hk.
    apply (proj1 (inject_Z_injective _ _)) in Hk.
    assert (Hin : forall r, In r (Trend.sortedHistory history) -> In r history).
    { intros r. apply Permutation_in. apply sort_Permutation. }
    exact (NoDup_map_injective timestamp history a b Hnd
             (Hin a Ha) (Hin b Hb) Hk).
  - apply sortedHistory_ascending.
  - apply sortedHistory_ascending.
  - unfold Trend.sortedHistory.
    rewrite !sort_Permutation. exact Hp.
Qed.

(** C5.  On samples with pairwise distinct timestamps the estimator
    returns the same trend for every reordering of the samples, for the
    liquidity and for the holders selector. *)
Theorem trend_invariant_under_reordering
    (history history' : list HistorySample) (type : TrendType) :
  Permutation history history' ->
  List.NoDup (map timestamp history) ->
  calculateTrend history' type = calculateTrend history type.
Proof.
  intros Hp Hnd. unfold calculateTrend, Trend.yPoints.
  rewrite (sortedHistory_permutation_invariant history history' Hp Hnd).
  now rewrite (Permutation_length Hp).
Qed.

(** C5, instantiated: the samples of [Sample.growth] in time order. *)
Lemma trend_invariant_under_reordering_witness :
  Permutation Sample.growthByTime Sample.growth /\
  List.NoDup (map timestamp Sample.growthByTime) /\
  calculateTrend Sample.growth liquidity =
  calculateTrend Sample.growthByTime liquidity.
Proof.
  assert (Hperm : Permutation Sample.growthByTime Sample.growth).
  { unfold Sample.growthByTime, Sample.growth.
    eapply perm_trans; [|apply perm_swap].
    apply perm_skip. apply perm_swap. }
  assert (Hnd : List.NoDup (map timestamp Sample.growthByTime)).
  { simpl. repeat constructor; simpl; intuition discriminate. }
  split; [exact Hperm|]. split; [exact Hnd|].
  exact (trend_invariant_under_reordering Sample.growthByTime Sample.growth
           liquidity Hperm Hnd).
Defined.

(** * Further properties *)

(** ** More on the expansion state *)

(** X1.  [toggleTokenExpansion] flips the membership of the toggled address
    and leaves the membership of every other address as it was. *)
Theorem toggle_flips_only_its_address
    (address other : string) (prev : gset string) :
  other ∈ toggleTokenExpansion address prev <->
  (other = address /\ address ∉ prev) \/ (other <> address /\ other ∈ prev).
Proof.
  unfold toggleTokenExpansion. case_bool_decide as Hin.
  - rewrite elem_of_difference, elem_of_singleton.
    destruct (decide (other = address)) as [-> | Hne]; tauto.
  - rewrite elem_of_union, elem_of_singleton.
    destruct (decide (other = address)) as [-> | Hne]; tauto.
Qed.

(** X2.  Toggling the same address twice restores the expansion set. *)
Theorem toggle_twice_restores (address : string) (prev : gset string) :
  toggleTokenExpansion address (toggleTokenExpansion address prev) = prev.
Proof.
  unfold toggleTokenExpansion.
  destruct (decide (address ∈ prev)) as [Hin | Hout].
  - rewrite (bool_decide_eq_true_2 _ Hin).
    rewrite bool_decide_eq_false_2
      by (rewrite elem_of_difference, elem_of_singleton; tauto).
    apply set_eq. intros other.
    rewrite elem_of_union, elem_of_difference, elem_of_singleton.
    destruct (decide (other = address)) as [-> | Hne]; tauto.
  - rewrite (bool_decide_eq_false_2 _ Hout).
    rewrite bool_decide_eq_true_2
      by (rewrite elem_of_union, elem_of_singleton; tauto).
    apply set_eq. intros other.
    rewrite elem_of_difference, elem_of_union, elem_of_singleton.
    destruct (decide (other = address)) as [-> | Hne]; tauto.
Qed.

Lemma toggleExpandAll_cases (currentTokens : list Token) (prev : gset string) :
  (toggleExpandAll currentTokens prev = ∅ /\
   exists token, In token currentTokens /\ tokenAddress token ∈ prev) \/
  (toggleExpandAll currentTokens prev
   = list_to_set (map tokenAddress currentTokens) /\
   forall token, In token currentTokens -> tokenAddress token ∉ prev).
Proof.
  unfold toggleExpandAll.
  destruct (JsArray.some _ currentTokens) eqn:Hsome.
  - left. split; [reflexivity|].
    apply some_exists in Hsome as (token & Hin & Hexp).
    apply bool_decide_eq_true in Hexp. eauto.
  - right. split; [reflexivity|].
    intros token Hin Hexp.
    assert (JsArray.some
              (fun token => bool_decide (tokenAddress token ∈ prev))
              currentTokens = true) as Htrue; [|congruence].
    apply some_exists. exists token. split; [exact Hin|].
    now apply bool_decide_eq_true.
Qed.

(** X3.  Whatever was expanded before, after the bulk operation no address
    outside the currently filtered tokens is expanded. *)
Theorem expand_all_keeps_only_filtered
    (currentTokens : list Token) (prev : gset string) :
  toggleExpandAll currentTokens prev
  ⊆ list_to_set (map tokenAddress currentTokens).
Proof.
  destruct (toggleExpandAll_cases currentTokens prev) as [[-> _] | [-> _]];
    set_solver.
Qed.

(** X4.  From the second click on, the bulk operation alternates between
    two states: a third click gives what the first click gave. *)
Theorem expand_all_has_period_two
    (currentTokens : list Token) (prev : gset string) :
  toggleExpandAll currentTokens
    (toggleExpandAll currentTokens
       (toggleExpandAll currentTokens prev))
  = toggleExpandAll currentTokens prev.
Proof.
  set (all := list_to_set (map tokenAddress currentTokens) : gset string).
  assert (Hempty : toggleExpandAll currentTokens ∅ = all).
  { destruct (toggleExpandAll_cases currentTokens ∅)
      as [[_ (t & _ & Hin)] | [-> _]]; [set_solver | reflexivity]. }
  assert (Hall : toggleExpandAll currentTokens all = ∅ \/ all = ∅).
  { destruct (toggleExpandAll_cases currentTokens all)
      as [[-> _] | [_ Hnone]]; [now left|right].
    apply set_eq. intros a. split; [|set_solver].
    intros Ha. unfold all in Ha.
    apply elem_of_list_to_set, list_elem_of_In, in_map_iff in Ha
      as (token & <- & Hin).
    exfalso. apply (Hnone token Hin). unfold all.
    apply elem_of_list_to_set, list_elem_of_In, in_map_iff. eauto. }
  destruct (toggleExpandAll_cases currentTokens prev) as [[-> _] | [-> _]];
    fold all.
  - rewrite Hempty.
    destruct Hall as [-> | Hnil]; [reflexivity|].
    rewrite Hnil in *. now rewrite !Hempty.
  - destruct Hall as [-> | Hnil].
    + exact Hempty.
    + rewrite Hnil in *. now rewrite !Hempty.
Qed.

(** ** A click, seen through [estimateSize] *)

Lemma findIndexFrom_none {A} (p : A -> bool) (l : list A) (i : Z) :
  (forall x, In x l -> p x = false) -> JsArray.findIndexFrom p l i = (-1)%Z.
Proof.
  revert i. induction l as [|a l IH]; intros i Hnone; simpl.
  - reflexivity.
  - rewrite (Hnone a) by now left.
    apply IH. intros x Hx. apply Hnone. now right.
Qed.

(** X5.  After a click on a token of the filtered sequence, the estimated
    size of its row no longer comes from a measurement: it is 800 if the
    click expanded the token and 42 if the click collapsed it. *)
Theorem click_resets_estimate_to_new_state
    (filtered : list Token) (address : string) (st : ListState) :
  (exists token, In token filtered /\ tokenAddress token = address) ->
  let index :=
    JsArray.findIndex (fun t => String.eqb (tokenAddress t) address) filtered in
  let st' := fst (handleTokenClick filtered address st) in
  estimateSize filtered (measuredHeights st') (expandedTokens st') index
  = if bool_decide (address ∈ expandedTokens st) then 42%Q else 800%Q.
Proof.
  intros (token & Hin & Haddr) index st'.
  destruct (findIndex_found
              (fun t => String.eqb (tokenAddress t) address) filtered)
    as (Hidx & (x & Hx & Hpx) & _).
  { exists token. split; [exact Hin|]. now apply String.eqb_eq. }
  fold index in Hidx, Hx. apply String.eqb_eq in Hpx.
  unfold estimateSize. rewrite Hx.
  unfold st', handleTokenClick. simpl. fold index.
  rewrite lookup_delete_eq.
  unfold fallbackHeight, toggleTokenExpansion. rewrite Hpx.
  destruct (decide (address ∈ expandedTokens st)) as [Hexp | Hout].
  - rewrite (bool_decide_eq_true_2 _ Hexp).
    rewrite bool_decide_eq_false_2; [reflexivity|].
    rewrite elem_of_difference, elem_of_singleton. tauto.
  - rewrite (bool_decide_eq_false_2 _ Hout).
    rewrite bool_decide_eq_true_2; [reflexivity|].
    rewrite elem_of_union, elem_of_singleton. tauto.
Qed.

(** X6.  A click on an address that is not in the filtered sequence still
    toggles the address, re-measures without scrolling, and leaves the
    measured height of every row as it was. *)
Theorem click_outside_filtered_sequence
    (filtered : list Token) (address : string) (st : ListState) :
  (forall token, In token filtered -> tokenAddress token <> address) ->
  let st' := fst (handleTokenClick filtered address st) in
  snd (handleTokenClick filtered address st) = [Measure] /\
  expandedTokens st' = toggleTokenExpansion address (expandedTokens st) /\
  (forall j, (0 <= j)%Z ->
     measuredHeights st' !! j = measuredHeights st !! j).
Proof.
  intros Hnone st'.
  assert (Hidx : JsArray.findIndex
                   (fun t => String.eqb (tokenAddress t) address) filtered
                 = (-1)%Z).
  { apply findIndexFrom_none. intros x Hx.
    apply String.eqb_neq. now apply Hnone. }
  unfold st', handleTokenClick. simpl. rewrite Hidx. simpl.
  split; [reflexivity|]. split; [reflexivity|].
  intros j Hj. apply lookup_delete_ne. lia.
Qed.

(** ** The resize observer *)

Lemma heightDiffers_false (prevHeight : option Q) (currentHeight : Q) :
  heightDiffers prevHeight currentHeight = false <->
  exists prev, prevHeight = Some prev /\ (prev == currentHeight)%Q.
Proof.
  unfold heightDiffers. destruct prevHeight as [prev|].
  - rewrite negb_false_iff, Qeq_bool_iff. split.
    + intros H. eauto.
    + now intros (p & [= <-] & H).
  - split; [discriminate|]. now intros (p & Hp & _).
Qed.

Lemma observeEntry_unchanged acc entry :
  ((0 <= entryIndex entry)%Z ->
   heightDiffers (fst acc !! entryIndex entry) (entryHeight entry) = false) ->
  observeEntry acc entry = acc.
Proof.
  intros Hsame. unfold observeEntry.
  destruct (Z.leb_spec 0 (entryIndex entry)) as [Hge|Hlt]; [|reflexivity].
  now rewrite (Hsame Hge).
Qed.

Lemma observeEntry_changed acc entry :
  (0 <= entryIndex entry)%Z ->
  heightDiffers (fst acc !! entryIndex entry) (entryHeight entry) = true ->
  observeEntry acc entry
  = (<[entryIndex entry := entryHeight entry]> (fst acc), true).
Proof.
  intros Hge Hdiff. unfold observeEntry.
  destruct (Z.leb_spec 0 (entryIndex entry)); [|lia].
  now rewrite Hdiff.
Qed.

Lemma observeEntry_cases acc entry :
  observeEntry acc entry = acc \/
  ((0 <= entryIndex entry)%Z /\
   observeEntry acc entry
   = (<[entryIndex entry := entryHeight entry]> (fst acc), true)).
Proof.
  destruct (Z.leb_spec 0 (entryIndex entry)) as [Hge|Hlt].
  - destruct (heightDiffers (fst acc !! entryIndex entry) (entryHeight entry))
      eqn:Hdiff.
    + right. split; [exact Hge|]. now apply observeEntry_changed.
    + left. apply observeEntry_unchanged. now intros _.
  - left. apply observeEntry_unchanged. lia.
Qed.

Lemma observe_flag_stays entries acc :
  snd acc = true -> snd (fold_left observeEntry entries acc) = true.
Proof.
  revert acc. induction entries as [|e entries IH]; intros acc Hflag; simpl.
  - exact Hflag.
  - apply IH. destruct (observeEntry_cases acc e) as [-> | [_ ->]];
      [exact Hflag | reflexivity].
Qed.

Lemma observe_nothing_new entries acc :
  (forall e, In e entries -> (0 <= entryIndex e)%Z ->
     heightDiffers (fst acc !! entryIndex e) (entryHeight e) = false) ->
  fold_left observeEntry entries acc = acc.
Proof.
  induction entries as [|e entries IH]; intros Hsame; simpl.
  - reflexivity.
  - rewrite observeEntry_unchanged.
    + apply IH. intros e' He'. apply Hsame. now right.
    + apply Hsame. now left.
Qed.

Lemma observe_something_new entries acc :
  (exists e, In e entries /\ (0 <= entryIndex e)%Z /\
     heightDiffers (fst acc !! entryIndex e) (entryHeight e) = true) ->
  snd (fold_left observeEntry entries acc) = true.
Proof.
  revert acc. induction entries as [|a entries IH];
    intros acc (e & Hin & Hge & Hdiff).
  - destruct Hin.
  - simpl. destruct (observeEntry_cases acc a) as [Hsame | [_ Hnew]].
    + rewrite Hsame. apply IH. exists e.
      destruct Hin as [<- | Hin]; [|tauto].
      rewrite (observeEntry_changed acc a Hge Hdiff) in Hsame.
      destruct acc as [m b]. simpl in Hsame. injection Hsame as Hm Hb.
      subst b. exfalso.
      assert (Hlook : m !! entryIndex a = Some (entryHeight a))
        by (rewrite <- Hm; apply lookup_insert_eq).
      simpl in Hdiff. rewrite Hlook in Hdiff. simpl in Hdiff.
      now rewrite Qeq_bool_refl in Hdiff.
    + rewrite Hnew. now apply observe_flag_stays.
Qed.

Lemma observe_frame entries acc (i : Z) :
  (forall e, In e entries -> entryIndex e <> i \/ (entryIndex e < 0)%Z) ->
  fst (fold_left observeEntry entries acc) !! i = fst acc !! i.
Proof.
  revert acc. induction entries as [|a entries IH]; intros acc Hother; simpl.
  - reflexivity.
  - rewrite IH by (intros e He; apply Hother; now right).
    destruct (observeEntry_cases acc a) as [-> | [Hge ->]]; [reflexivity|].
    simpl. apply lookup_insert_ne.
    destruct (Hother a (or_introl eq_refl)); [assumption | lia].
Qed.

Lemma observe_records entries acc entry :
  (0 <= entryIndex entry)%Z ->
  exists h,
    fst (fold_left observeEntry (entries ++ [entry]) acc) !! entryIndex entry
    = Some h /\ (h == entryHeight entry)%Q.
Proof.
  intros Hge. rewrite fold_left_app. simpl.
  set (mid := fold_left observeEntry entries acc).
  destruct (heightDiffers (fst mid !! entryIndex entry) (entryHeight entry))
    eqn:Hdiff.
  - rewrite (observeEntry_changed mid entry Hge Hdiff). simpl.
    exists (entryHeight entry). split; [apply lookup_insert_eq | reflexivity].
  - rewrite observeEntry_unchanged by (now intros _).
    apply heightDiffers_false in Hdiff as (prev & Hprev & Heq). eauto.
Qed.

Lemma observe_flag_false entries acc :
  snd (fold_left observeEntry entries acc) = false ->
  fold_left observeEntry entries acc = acc.
Proof.
  revert acc. induction entries as [|a entries IH]; intros acc Hflag; simpl.
  - reflexivity.
  - simpl in Hflag.
    destruct (observeEntry_cases acc a) as [Hsame | [_ Hnew]].
    + rewrite Hsame in *. now apply IH.
    + rewrite Hnew in Hflag.
      rewrite observe_flag_stays in Hflag by reflexivity. discriminate.
Qed.

Lemma onResizeEntries_heights measured entries :
  fst (onResizeEntries measured entries)
  = fst (fold_left observeEntry entries (measured, false)).
Proof.
  unfold onResizeEntries.
  destruct (snd (fold_left observeEntry entries (measured, false))) eqn:Hflag;
    [reflexivity|].
  now rewrite (observe_flag_false _ _ Hflag).
Qed.

(** X7.  After the callback, the height stored for an observed row is the
    height reported by the last entry for that row. *)
Theorem resize_report_records_last_height
    (measured : gmap Z Q) (before after : list ResizeEntry)
    (entry : ResizeEntry) :
  (0 <= entryIndex entry)%Z ->
  (forall e, In e after -> entryIndex e <> entryIndex entry) ->
  exists h,
    fst (onResizeEntries measured (before ++ entry :: after))
      !! entryIndex entry = Some h /\
    (h == entryHeight entry)%Q.
Proof.
  intros Hge Hlast. rewrite onResizeEntries_heights.
  replace (before ++ entry :: after)%list
    with ((before ++ [entry]) ++ after)%list
    by now rewrite <- app_assoc.
  rewrite fold_left_app.
  rewrite observe_frame by (intros e He; left; now apply Hlast).
  now apply observe_records.
Qed.

(** X8.  The callback neither creates nor changes the stored height of an
    index for which it received no entry; entries with a negative index
    are ignored. *)
Theorem resize_report_touches_only_reported_rows
    (measured : gmap Z Q) (entries : list ResizeEntry) (index : Z) :
  (forall e, In e entries -> entryIndex e <> index \/ (entryIndex e < 0)%Z) ->
  fst (onResizeEntries measured entries) !! index = measured !! index.
Proof.
  intros Hother. rewrite onResizeEntries_heights.
  now rewrite observe_frame.
Qed.

(** X9.  The callback re-measures exactly when some reported row has no
    stored height equal to the reported one; when every report repeats the
    stored height, nothing is written and the virtualizer is not called. *)
Theorem resize_report_remeasures_iff_changed
    (measured : gmap Z Q) (entries : list ResizeEntry) :
  ((exists e, In e entries /\ (0 <= entryIndex e)%Z /\
      ~ exists prev, measured !! entryIndex e = Some prev /\
                     (prev == entryHeight e)%Q) ->
   snd (onResizeEntries measured entries) = [Measure]) /\
  ((forall e, In e entries -> (0 <= entryIndex e)%Z ->
      exists prev, measured !! entryIndex e = Some prev /\
                   (prev == entryHeight e)%Q) ->
   onResizeEntries measured entries = (measured, [])).
Proof.
  unfold onResizeEntries. split.
  - intros (e & Hin & Hge & Hnew).
    rewrite (observe_something_new entries (measured, false)); [reflexivity|].
    exists e. split; [exact Hin|]. split; [exact Hge|].
    simpl. apply not_false_iff_true. intros Hsame.
    now apply heightDiffers_false in Hsame.
  - intros Hsame.
    rewrite (observe_nothing_new entries (measured, false)); [reflexivity|].
    intros e Hin Hge. apply heightDiffers_false. now apply Hsame.
Qed.

(** ** Persisted configuration *)

Lemma tokenFilter_defaults
    (toLowerCase : string -> string)
    (parseLpHolders : string -> option (list LpHolder)) (token : Token) :
  tokenFilter toLowerCase parseLpHolders defaultFilters token = true.
Proof. reflexivity. Qed.

(** X10.  When the stored configuration is missing, empty or not JSON, the
    component starts from the defaults, and the defaults filter nothing
    out: every token passes the predicate, the order is by age and at most
    50 records are shown. *)
Theorem unusable_saved_filters_mean_no_filtering
    (JSON_parse : string -> Completion FilterState)
    (toLowerCase : string -> string)
    (parseLpHolders : string -> option (list LpHolder))
    (storage : gmap string string) :
  storage !! STORAGE_KEY = None \/
  storage !! STORAGE_KEY = Some "" \/
  (exists saved, storage !! STORAGE_KEY = Some saved /\
                 JSON_parse saved = Throw) ->
  let F := getSavedFilters JSON_parse storage in
  (forall token, tokenFilter toLowerCase parseLpHolders F token = true) /\
  sortBy F = "age" /\ maxRecords F = 50%Z.
Proof.
  intros Hbad F.
  assert (HF : F = defaultFilters).
  { unfold F, getSavedFilters.
    destruct Hbad as [-> | [-> | (saved & -> & Hthrow)]]; try reflexivity.
    rewrite Hthrow. now destruct (JsString.truthy saved). }
  rewrite HF. split; [|split; reflexivity].
  intros token. apply tokenFilter_defaults.
Qed.

(** X11.  What [updateFilters] stores is what [getSavedFilters] reads
    back, provided the serialisation of the new configuration parses to
    that configuration. *)
Theorem saved_filters_round_trip
    (JSON_parse : string -> Completion FilterState)
    (JSON_stringify : FilterState -> string)
    (update : FilterUpdate) (view : FilterView) :
  let view' := updateFilters JSON_stringify update view in
  JSON_stringify (filters view') <> "" ->
  JSON_parse (JSON_stringify (filters view')) = Normal (filters view') ->
  getSavedFilters JSON_parse (localStorage view') = filters view'.
Proof.
  intros view' Hne Hparse. unfold getSavedFilters.
  unfold view' at 1, updateFilters at 1. simpl.
  rewrite lookup_insert_eq.
  change (match update with
          | Replace f => f
          | Modify f => f (filters view)
          end) with (filters view').
  apply truthy_nonempty in Hne. now rewrite Hne, Hparse.
Qed.

(** ** Positions and total height *)

Lemma positionStep_offset expanded (l : list Token) positions (offset : Q) :
  snd (fold_left (positionStep expanded) l (positions, offset))
  = fold_left (fun height token => (height + fallbackHeight expanded token)%Q)
      l offset.
Proof.
  revert positions offset. induction l as [|t l IH]; intros positions offset.
  - reflexivity.
  - simpl. unfold positionStep at 2. simpl. apply IH.
Qed.

Lemma positionStep_frame expanded (l : list Token) acc (address : string) :
  (forall t, In t l -> tokenAddress t <> address) ->
  fst (fold_left (positionStep expanded) l acc) !! address = fst acc !! address.
Proof.
  revert acc. induction l as [|t l IH]; intros acc Hother; simpl.
  - reflexivity.
  - rewrite IH by (intros t' Ht'; apply Hother; now right).
    unfold positionStep. simpl. apply lookup_insert_ne.
    apply Hother. now left.
Qed.

(** X12.  The position recorded for an address is the summed height of
    the rows in front of the last token that carries it: with distinct
    addresses, of the rows in front of the token itself. *)
Theorem position_is_height_of_rows_before
    (before after : list Token) (token : Token) (expanded : gset string) :
  (forall t, In t after -> tokenAddress t <> tokenAddress token) ->
  calculatePositions (before ++ token :: after) expanded
    !! tokenAddress token
  = Some (totalHeight before expanded).
Proof.
  intros Hlast. unfold calculatePositions.
  rewrite fold_left_app. simpl.
  rewrite positionStep_frame by exact Hlast.
  unfold positionStep at 1. simpl. rewrite lookup_insert_eq.
  f_equal. apply positionStep_offset.
Qed.

Lemma fold_left_heights (f : Token -> Q) (l : list Token) (a : Q) :
  (fold_left (fun height token => height + f token) l a
   == a + fold_right Qplus 0 (map f l))%Q.
Proof.
  revert a. induction l as [|t l IH]; intros a; simpl.
  - ring.
  - rewrite IH. ring.
Qed.

(** X13.  The total height is 800 for every expanded token of the filtered
    sequence plus 42 for every other one. *)
Theorem totalHeight_counts_rows
    (filtered : list Token) (expanded : gset string) :
  let expandedRows :=
    length (List.filter
              (fun token => bool_decide (tokenAddress token ∈ expanded))
              filtered) in
  (totalHeight filtered expanded
   == 800 * inject_Z (Z.of_nat expandedRows)
      + 42 * inject_Z (Z.of_nat (length filtered - expandedRows)))%Q.
Proof.
  intros expandedRows. unfold totalHeight.
  rewrite fold_left_heights, Qplus_0_l.
  unfold expandedRows. clear expandedRows.
  induction filtered as [|t l IH].
  - reflexivity.
  - cbn [map fold_right List.filter]. rewrite IH. clear IH.
    pose proof (filter_length_le
                  (fun token => bool_decide (tokenAddress token ∈ expanded)) l)
      as He.
    set (e := length (List.filter _ l)) in *.
    unfold fallbackHeight, EXPANDED_HEIGHT, COLLAPSED_HEIGHT.
    destruct (bool_decide (tokenAddress t ∈ expanded)); cbn [length]; fold e.
    + replace (S (length l) - S e)%nat with (length l - e)%nat by lia.
      rewrite Nat2Z.inj_succ, <- Z.add_1_r, inject_Z_plus. ring.
    + replace (S (length l) - e)%nat with (S (length l - e)) by lia.
      rewrite (Nat2Z.inj_succ (length l - e)), <- Z.add_1_r, inject_Z_plus.
      ring.
Qed.

Lemma estimateSize_unmeasured
    (before after : list Token) (token : Token) (expanded : gset string) :
  estimateSize (before ++ token :: after) ∅ expanded
    (Z.of_nat (length before))
  = fallbackHeight expanded token.
Proof.
  unfold estimateSize, JsArray.at_.
  destruct (Z.ltb_spec (Z.of_nat (length before)) 0); [lia|].
  rewrite Nat2Z.id, nth_error_app2 by lia.
  rewrite Nat.sub_diag. simpl. now rewrite lookup_empty.
Qed.

Lemma estimates_unmeasured
    (before rows : list Token) (expanded : gset string) :
  map (fun i => estimateSize (before ++ rows) ∅ expanded (Z.of_nat i))
    (seq (length before) (length rows))
  = map (fallbackHeight expanded) rows.
Proof.
  revert before. induction rows as [|t rows IH]; intros before.
  - reflexivity.
  - cbn [length seq map]. rewrite estimateSize_unmeasured. f_equal.
    replace (before ++ t :: rows)%list with ((before ++ [t]) ++ rows)%list
      by now rewrite <- app_assoc.
    replace (S (length before)) with (length (before ++ [t])%list)
      by (rewrite length_app; simpl; lia).
    apply IH.
Qed.

(** X14.  Right after a filter update or a window resize no measurement is
    left, and the row estimates of any filtered sequence add up to its
    total height. *)
Theorem estimates_add_up_after_reset
    (JSON_stringify : FilterState -> string)
    (update : FilterUpdate) (view : FilterView)
    (filtered : list Token) (expanded : gset string) :
  let indices := seq 0 (length filtered) in
  let extent (measured : gmap Z Q) :=
    fold_right Qplus 0%Q
      (map (fun i => estimateSize filtered measured expanded (Z.of_nat i))
         indices) in
  (extent (heights (updateFilters JSON_stringify update view))
   == totalHeight filtered expanded)%Q /\
  (extent (heights (fst (handleResize view)))
   == totalHeight filtered expanded)%Q.
Proof.
  intros indices extent.
  assert (H : (extent ∅ == totalHeight filtered expanded)%Q).
  { unfold extent, indices, totalHeight.
    rewrite fold_left_heights, Qplus_0_l.
    pose proof (estimates_unmeasured [] filtered expanded) as Hrows.
    cbn [app length] in Hrows. now rewrite Hrows. }
  split; exact H.
Qed.

(** ** Trend store and history fetches *)

(** X15.  A resolved request changes what is displayed for its own address
    only: on success the row of that address shows the trends of the
    fetched history, on failure it shows what it showed before, and the row
    of every other address is unaffected either way. *)
Theorem fetch_result_updates_one_row
    (address : string) (outcome : FetchOutcome) (current : HistoryStore)
    (token : Token) :
  let after := fetchResolved address outcome current in
  (tokenAddress token <> address ->
   displayedTrends (tokenTrends after) token
   = displayedTrends (tokenTrends current) token) /\
  (tokenAddress token = address ->
   (forall history, outcome = Normal (Some history) ->
      displayedTrends (tokenTrends after) token = trendsOf history /\
      tokenHistories after !! address = Some history) /\
   (outcome = Normal None \/ outcome = Throw -> after = current)).
Proof.
  intros after. unfold after, fetchResolved, displayedTrends. split.
  - intros Hother. destruct outcome as [[history|]|]; try reflexivity.
    simpl. unfold updateTokenTrends.
    now rewrite lookup_insert_ne by congruence.
  - intros ->. split.
    + intros history ->. simpl. unfold updateTokenTrends.
      now rewrite !lookup_insert_eq.
    + now intros [-> | ->].
Qed.

Lemma fetchResolved_consistent address outcome current :
  storeConsistent current ->
  storeConsistent (fetchResolved address outcome current).
Proof.
  intros Hc. destruct outcome as [[history|]|]; simpl; try exact Hc.
  intros a stored. simpl. unfold updateTokenTrends.
  destruct (decide (address = a)) as [-> | Hne].
  - rewrite !lookup_insert_eq. intros [= <-]. eauto.
  - rewrite !lookup_insert_ne by exact Hne. apply Hc.
Qed.

Lemma fetchStep_consistent st st' :
  fetchStep st st' ->
  storeConsistent (store st) -> storeConsistent (store st').
Proof.
  intros Hstep Hc. destruct Hstep; simpl in *.
  - exact Hc.
  - now apply fetchResolved_consistent.
Qed.

Lemma fetch_run_consistent st st' :
  rtc fetchStep st st' ->
  storeConsistent (store st) -> storeConsistent (store st').
Proof.
  induction 1 as [|st1 st2 st3 Hstep _ IH]; [tauto|].
  intros Hc. apply IH. now apply (fetchStep_consistent st1 st2).
Qed.

(** X16.  However the effect runs and the requests resolve, every entry of
    the trend store is the pair of trends of the history that the history
    map holds for the same address. *)
Theorem trend_store_matches_histories
    (cache : gmap string (list HistorySample)) (st : FetchState) :
  rtc fetchStep (initialFetchState cache) st ->
  forall address stored,
    tokenTrends (store st) !! address = Some stored ->
    exists history,
      tokenHistories (store st) !! address = Some history /\
      stored = {| liquidityTrend := calculateTrend history liquidity;
                  holdersTrend := calculateTrend history holders |}.
Proof.
  intros Hrun. change (storeConsistent (store st)).
  apply (fetch_run_consistent _ _ Hrun).
  intros a stored. simpl. now rewrite lookup_empty.
Qed.

Lemma elem_of_distinctFrom {A} `{EqDecision A} (seen l : list A) (x : A) :
  x ∈ distinctFrom seen l <-> x ∈ l /\ x ∉ seen.
Proof.
  revert seen. induction l as [|y l IH]; intros seen; simpl.
  - rewrite !elem_of_nil. tauto.
  - destruct (decide (y ∈ seen)) as [Hin | Hout].
    + rewrite IH, elem_of_cons. split.
      * tauto.
      * intros [[-> | Hl] Hx]; tauto.
    + rewrite !elem_of_cons, IH, elem_of_cons.
      destruct (decide (x = y)) as [-> | Hne]; tauto.
Qed.

Lemma NoDup_distinctFrom {A} `{EqDecision A} (seen l : list A) :
  NoDup (distinctFrom seen l).
Proof.
  revert seen. induction l as [|y l IH]; intros seen; simpl.
  - constructor.
  - destruct (decide (y ∈ seen)); [apply IH|].
    constructor; [|apply IH].
    rewrite elem_of_distinctFrom, elem_of_cons. tauto.
Qed.

Lemma elem_of_fetchable histories tokenAddress (a : string) :
  a ∈ fetchable histories tokenAddress <->
  tokenAddress = Some a /\ a <> "" /\ histories !! a = None.
Proof.
  unfold fetchable. destruct tokenAddress as [address|].
  - destruct (JsString.truthy address) eqn:Ht; simpl.
    + apply truthy_nonempty in Ht.
      case_bool_decide as Hs; simpl.
      * rewrite elem_of_nil. split; [tauto|].
        intros ([= ->] & _ & Hnone). rewrite Hnone in Hs.
        now destruct Hs.
      * rewrite list_elem_of_singleton. split.
        -- intros ->. split; [reflexivity|]. split; [exact Ht|].
           now apply eq_None_not_Some.
        -- now intros ([= ->] & _).
    + rewrite elem_of_nil. split; [tauto|].
      intros ([= ->] & Hne & _). apply truthy_nonempty in Hne. congruence.
  - rewrite elem_of_nil. split; [tauto|]. now intros (? & _).
Qed.

Lemma elem_of_flat_map_fetchable histories (l : list (option string)) a :
  a ∈ flat_map (fetchable histories) l <->
  Some a ∈ l /\ a <> "" /\ histories !! a = None.
Proof.
  rewrite list_elem_of_In, in_flat_map. split.
  - intros (x & Hx & Ha). apply list_elem_of_In, elem_of_fetchable in Ha
      as (-> & Hne & Hnone).
    now rewrite list_elem_of_In.
  - intros (Hin & Hne & Hnone). exists (Some a).
    rewrite <- !list_elem_of_In, elem_of_fetchable. tauto.
Qed.

Lemma NoDup_flat_map_fetchable histories (l : list (option string)) :
  NoDup l -> NoDup (flat_map (fetchable histories) l).
Proof.
  induction 1 as [|x l Hx Hnd IH]; simpl; [constructor|].
  apply NoDup_app. split; [|split; [|exact IH]].
  - unfold fetchable. destruct x as [address|]; [|constructor].
    destruct (_ && _); [apply NoDup_singleton | constructor].
  - intros a Ha Hl. apply elem_of_fetchable in Ha as (-> & _).
    apply elem_of_flat_map_fetchable in Hl as (Hin & _). contradiction.
Qed.

Lemma tokensToFetch_unfold filtered histories rows :
  tokensToFetch filtered histories rows
  = flat_map (fetchable histories)
      (distinct (map (fun token => option_map tokenAddress token)
                   (map (JsArray.at_ filtered) rows))).
Proof. reflexivity. Qed.

Lemma elem_of_tokensToFetch filtered histories rows address :
  address ∈ tokensToFetch filtered histories rows <->
  (exists row token,
     In row rows /\ JsArray.at_ filtered row = Some token /\
     tokenAddress token = address) /\
  address <> "" /\ histories !! address = None.
Proof.
  rewrite tokensToFetch_unfold, elem_of_flat_map_fetchable.
  unfold distinct. rewrite elem_of_distinctFrom, elem_of_nil.
  rewrite list_elem_of_In, in_map_iff.
  split.
  - intros ((([token|] & Hsome & Hin) & _) & Hne & Hnone);
      [|discriminate].
    simpl in Hsome. injection Hsome as Haddr.
    apply in_map_iff in Hin as (row & Hat & Hrow).
    split; [|tauto]. exists row, token. tauto.
  - intros ((row & token & Hrow & Hat & Haddr) & Hne & Hnone).
    split; [|tauto]. split; [|tauto].
    exists (Some token). simpl. split; [now rewrite Haddr|].
    apply in_map_iff. eauto.
Qed.

Lemma NoDup_tokensToFetch filtered histories rows :
  NoDup (tokensToFetch filtered histories rows).
Proof.
  rewrite tokensToFetch_unfold.
  apply NoDup_flat_map_fetchable, NoDup_distinctFrom.
Qed.

(** X17.  The effect requests an address exactly when it is the non-empty
    address of a token under one of the virtual rows and the history map
    has no entry for it; and it requests no address twice in one run. *)
Theorem effect_fetches_visible_uncached_once
    (filtered : list Token)
    (histories : gmap string (list HistorySample)) (rows : list Z) :
  NoDup (tokensToFetch filtered histories rows) /\
  forall address,
    address ∈ tokensToFetch filtered histories rows <->
    (exists row token,
       In row rows /\ JsArray.at_ filtered row = Some token /\
       tokenAddress token = address) /\
    address <> "" /\ histories !! address = None.
Proof.
  split.
  - apply NoDup_tokensToFetch.
  - intros address. apply elem_of_tokensToFetch.
Qed.

Lemma fetchStep_cacheUntouched cache st st' :
  fetchStep st st' -> cacheUntouched cache st -> cacheUntouched cache st'.
Proof.
  intros Hstep [Hflight Hkept]. destruct Hstep; simpl in *.
  - split; [|exact Hkept]. simpl. intros address Hin.
    apply elem_of_app in Hin as [Hin | Hin]; [now apply Hflight|].
    apply elem_of_tokensToFetch in Hin as (_ & _ & Hnone).
    destruct (cache !! address) as [h|] eqn:Hc; [|reflexivity].
    destruct (Hkept address) as [Hh _]; [now rewrite Hc|].
    rewrite Hc in Hh. congruence.
  - assert (Hfresh : cache !! address = None).
    { apply Hflight. rewrite elem_of_app, elem_of_cons. tauto. }
    split; simpl.
    + intros a Hin. apply Hflight.
      rewrite elem_of_app, elem_of_cons. apply elem_of_app in Hin. tauto.
    + intros a Hsome.
      assert (Hne : address <> a).
      { intros ->. rewrite Hfresh in Hsome. now destruct Hsome. }
      destruct (Hkept a Hsome) as [Hh Ht].
      destruct outcome as [[history|]|]; simpl; [|tauto|tauto].
      unfold updateTokenTrends. now rewrite !lookup_insert_ne by exact Hne.
Qed.

Lemma fetch_run_cacheUntouched cache st st' :
  rtc fetchStep st st' -> cacheUntouched cache st -> cacheUntouched cache st'.
Proof.
  induction 1 as [|st1 st2 st3 Hstep _ IH]; [tauto|].
  intros Hc. apply IH. now apply (fetchStep_cacheUntouched cache st1 st2).
Qed.

(** X18.  An address whose history came from the persisted cache is never
    requested: its history is never replaced and the trend store never
    gets an entry for it, so its row keeps showing the default trends. *)
Theorem cached_history_never_gets_trends
    (cache : gmap string (list HistorySample)) (st : FetchState)
    (token : Token) :
  rtc fetchStep (initialFetchState cache) st ->
  is_Some (cache !! (tokenAddress token)) ->
  (tokenAddress token ∉ inFlight st) /\
  tokenHistories (store st) !! (tokenAddress token)
  = cache !! (tokenAddress token) /\
  displayedTrends (tokenTrends (store st)) token
  = {| liquidityTrend := stagnant; holdersTrend := stagnant |}.
Proof.
  intros Hrun Hcached.
  destruct (fetch_run_cacheUntouched cache _ _ Hrun) as [Hflight Hkept].
  { split; simpl.
    - intros a Hin. now apply elem_of_nil in Hin.
    - intros a _. split; [reflexivity | apply lookup_empty]. }
  destruct (Hkept _ Hcached) as [Hh Ht].
  split; [|split].
  - intros Hin. apply Hflight in Hin. rewrite Hin in Hcached.
    now destruct Hcached.
  - exact Hh.
  - unfold displayedTrends. now rewrite Ht.
Qed.

(** ** More on the filter/sort engine *)

Lemma filter_all_true {A} (f : A -> bool) (l : list A) :
  Forall (fun x => f x = true) l -> List.filter f l = l.
Proof.
  induction 1 as [|x l Hx _ IH]; simpl; [reflexivity|].
  now rewrite Hx, IH.
Qed.

Lemma slice0_all {A} (l : list A) (limit : Z) :
  (Z.of_nat (length l) <= limit)%Z -> JsArray.slice0 l limit = l.
Proof.
  intros Hfit. unfold JsArray.slice0.
  destruct (Z.ltb_spec limit 0); [lia|].
  rewrite Z.min_r by lia. rewrite Nat2Z.id. apply firstn_all.
Qed.

Lemma sort_of_ascending {A} (key : A -> Q) (cmp : A -> A -> Q) (l : list A) :
  (forall a b, (cmp a b <= 0)%Q <-> (key a <= key b)%Q) ->
  ascendingOn key l -> JsArray.sort cmp l = l.
Proof.
  intros Hkey. unfold ascendingOn. induction 1 as [|x l Hs IH Hall].
  - reflexivity.
  - simpl. rewrite IH. destruct l as [|y l]; [reflexivity|].
    simpl. apply Forall_cons in Hall as [Hxy _].
    apply Hkey, Qle_bool_iff in Hxy. now rewrite Hxy.
Qed.

(** Every comparator that [compareTokens] can be is the difference of one
    numeric key. *)
Lemma compareTokens_difference (F : FilterState) (a b c : Token) :
  (compareTokens F a b == compareTokens F a c - compareTokens F b c)%Q.
Proof.
  unfold compareTokens. cbv zeta.
  destruct (JsString.endsWith (sortBy F) "_asc");
    repeat match goal with
           | |- context [String.eqb ?x ?y] => destruct (String.eqb x y)
           end; ring.
Qed.

Lemma compareTokens_sortKey (F : FilterState) (a b : Token) :
  (compareTokens F a b <= 0)%Q <-> (sortKey F a <= sortKey F b)%Q.
Proof.
  unfold sortKey.
  rewrite (compareTokens_difference F a b referenceToken).
  split; intros; lra.
Qed.

Section EngineMore.
Variable toLowerCase : string -> string.
Variable parseLpHolders : string -> option (list LpHolder).

Local Abbreviation engine := (filteredTokens toLowerCase parseLpHolders).
Local Abbreviation passes := (tokenFilter toLowerCase parseLpHolders).

Lemma filteredTokens_In tokens F token :
  In token (engine tokens F) ->
  In token tokens /\ passes F token = true.
Proof.
  intros Hin.
  destruct (filteredTokens_take toLowerCase parseLpHolders tokens F)
    as [k Hk].
  rewrite Hk in Hin.
  apply list_elem_of_In, (subseteq_take k), list_elem_of_In in Hin.
  apply (Permutation_in _ (sort_Permutation _ _)) in Hin.
  apply filter_In in Hin. exact Hin.
Qed.

Lemma filteredTokens_fits tokens F :
  (Z.of_nat (length (List.filter (passes F) tokens)) <= maxRecords F)%Z ->
  engine tokens F
  = JsArray.sort (compareTokens F) (List.filter (passes F) tokens).
Proof.
  intros Hfit. unfold filteredTokens.
  apply slice0_all. now rewrite sort_length.
Qed.

End EngineMore.

(** X19.  Every token of the output is a token of the input that the
    filter predicate accepts. *)
Theorem output_tokens_pass_the_filter
    (toLowerCase : string -> string)
    (parseLpHolders : string -> option (list LpHolder))
    (tokens : list Token) (F : FilterState) :
  Forall
    (fun token =>
       In token tokens /\
       tokenFilter toLowerCase parseLpHolders F token = true)
    (filteredTokens toLowerCase parseLpHolders tokens F).
Proof.
  apply List.Forall_forall. intros token Hin.
  now apply (filteredTokens_In toLowerCase parseLpHolders tokens F).
Qed.

(** X20.  When the accepted tokens number at most [maxRecords], none of
    them is dropped: the output is a reordering of exactly the accepted
    tokens. *)
Theorem nothing_dropped_within_limit
    (toLowerCase : string -> string)
    (parseLpHolders : string -> option (list LpHolder))
    (tokens : list Token) (F : FilterState) :
  let accepted :=
    List.filter (tokenFilter toLowerCase parseLpHolders F) tokens in
  (Z.of_nat (length accepted) <= maxRecords F)%Z ->
  Permutation (filteredTokens toLowerCase parseLpHolders tokens F) accepted.
Proof.
  intros accepted Hfit.
  rewrite filteredTokens_fits by exact Hfit.
  apply sort_Permutation.
Qed.

(** X21.  For a non-negative [maxRecords], feeding the output back into
    the engine under the same configuration returns it unchanged. *)
Theorem engine_is_idempotent
    (toLowerCase : string -> string)
    (parseLpHolders : string -> option (list LpHolder))
    (tokens : list Token) (F : FilterState) :
  (0 <= maxRecords F)%Z ->
  filteredTokens toLowerCase parseLpHolders
    (filteredTokens toLowerCase parseLpHolders tokens F) F
  = filteredTokens toLowerCase parseLpHolders tokens F.
Proof.
  intros Hmax.
  set (output := filteredTokens toLowerCase parseLpHolders tokens F).
  unfold filteredTokens at 1. fold output.
  rewrite filter_all_true.
  - rewrite (sort_of_ascending (sortKey F)).
    + apply slice0_all. unfold output, filteredTokens.
      now apply slice0_length.
    + apply compareTokens_sortKey.
    + apply filteredTokens_ascending, compareTokens_sortKey.
  - apply List.Forall_forall. intros token Hin.
    now apply (filteredTokens_In toLowerCase parseLpHolders tokens F).
Qed.

Lemma sort_constant_comparator {A} (cmp : A -> A -> Q) (l : list A) :
  (forall a b, cmp a b = 0%Q) -> JsArray.sort cmp l = l.
Proof.
  intros Hzero. induction l as [|x l IH]; simpl; [reflexivity|].
  rewrite IH. destruct l as [|y l]; [reflexivity|].
  simpl. now rewrite Hzero.
Qed.

(** X22.  A [sortBy] whose field is none of the four recognised names
    sorts nothing: the output is the accepted tokens in input order, cut to
    [maxRecords]. *)
Theorem unrecognised_sortBy_keeps_input_order
    (toLowerCase : string -> string)
    (parseLpHolders : string -> option (list LpHolder))
    (tokens : list Token) (F : FilterState) :
  let field :=
    if JsString.endsWith (sortBy F) "_asc"
    then JsString.replace "_asc" "" (sortBy F) else sortBy F in
  field <> "age" -> field <> "holders" ->
  field <> "liquidity" -> field <> "safetyScore" ->
  filteredTokens toLowerCase parseLpHolders tokens F
  = JsArray.slice0
      (List.filter (tokenFilter toLowerCase parseLpHolders F) tokens)
      (maxRecords F).
Proof.
  intros field Hage Hholders Hliquidity Hsafety.
  unfold filteredTokens. rewrite sort_constant_comparator; [reflexivity|].
  intros a b. unfold compareTokens. cbv zeta. fold field.
  apply String.eqb_neq in Hage, Hholders, Hliquidity, Hsafety.
  now rewrite Hage, Hholders, Hliquidity, Hsafety.
Qed.

Section Stability.
Context {A : Type}.
Variable key : A -> Q.
Variable cmp : A -> A -> Q.
Hypothesis cmp_key : forall a b, (cmp a b <= 0)%Q <-> (key a <= key b)%Q.
Variable level : Q.

Local Abbreviation sameLevel := (fun x : A => Qeq_bool (key x) level).

Lemma insertBy_same_level x l :
  List.filter sameLevel (JsArray.insertBy cmp x l)
  = if sameLevel x then x :: List.filter sameLevel l
    else List.filter sameLevel l.
Proof.
  induction l as [|y l IH]; simpl.
  - reflexivity.
  - destruct (Qle_bool (cmp x y) 0) eqn:Hle.
    + reflexivity.
    + simpl. rewrite IH.
      destruct (sameLevel x) eqn:Hx; [|reflexivity].
      destruct (sameLevel y) eqn:Hy; [|reflexivity].
      exfalso. apply Qeq_bool_iff in Hx, Hy.
      assert (Hxy : (cmp x y <= 0)%Q) by (apply cmp_key; lra).
      apply Qle_bool_iff in Hxy. congruence.
Qed.

Lemma sort_same_level l :
  List.filter sameLevel (JsArray.sort cmp l) = List.filter sameLevel l.
Proof.
  induction l as [|x l IH]; simpl; [reflexivity|].
  rewrite insertBy_same_level, IH. reflexivity.
Qed.

End Stability.

Lemma filter_take_prefix {A} (f : A -> bool) (l : list A) (k : nat) :
  exists n, List.filter f (take k l) = take n (List.filter f l).
Proof.
  revert k. induction l as [|x l IH]; intros [|k]; simpl.
  - now exists 0%nat.
  - now exists 0%nat.
  - now exists 0%nat.
  - destruct (IH k) as [n Hn]. destruct (f x).
    + exists (S n). simpl. now rewrite Hn.
    + now exists n.
Qed.

(** X23.  Ties keep their input order: the tokens of the output that the
    comparator ranks equal to a given token are, in order, the first of
    the accepted input tokens that rank equal to it. *)
Theorem ties_keep_input_order
    (toLowerCase : string -> string)
    (parseLpHolders : string -> option (list LpHolder))
    (tokens : list Token) (F : FilterState) (reference : Token) :
  let tied token := Qeq_bool (compareTokens F token reference) 0 in
  exists n,
    List.filter tied (filteredTokens toLowerCase parseLpHolders tokens F)
    = take n
        (List.filter tied
           (List.filter (tokenFilter toLowerCase parseLpHolders F) tokens)).
Proof.
  intros tied.
  destruct (filteredTokens_take toLowerCase parseLpHolders tokens F)
    as [k ->].
  destruct (filter_take_prefix tied
              (JsArray.sort (compareTokens F)
                 (List.filter (tokenFilter toLowerCase parseLpHolders F)
                    tokens)) k) as [n ->].
  exists n. f_equal.
  assert (Htied : forall token,
             tied token = Qeq_bool (sortKey F token) (sortKey F reference)).
  { intros token. unfold tied, sortKey.
    destruct (Qeq_bool (compareTokens F token referenceToken)
                (compareTokens F reference referenceToken)) eqn:E.
    - apply Qeq_bool_iff in E. apply Qeq_bool_iff.
      rewrite (compareTokens_difference F token reference referenceToken).
      lra.
    - apply not_true_iff_false. intros E'. apply Qeq_bool_iff in E'.
      apply not_true_iff_false in E. apply E. apply Qeq_bool_iff.
      rewrite (compareTokens_difference F token reference referenceToken)
        in E'.
      lra. }
  rewrite !(filter_ext _ _ Htied).
  apply sort_same_level, compareTokens_sortKey.
Qed.

(** ** Tightening the configuration *)

Lemma reject_rule_monotone (flag flag' condition rest rest' : bool) :
  (flag = true -> flag' = true) ->
  (rest' = true -> rest = true) ->
  (if flag' && condition then false else rest') = true ->
  (if flag && condition then false else rest) = true.
Proof.
  intros Hflag Hrest. destruct flag, flag', condition; simpl; auto;
    discriminate.
Qed.

Lemma minimum_rule_monotone (minimum minimum' value : Q) (rest rest' : bool) :
  (minimum <= minimum')%Q ->
  (rest' = true -> rest = true) ->
  (if Qltb 0 minimum' && Qltb value minimum' then false else rest') = true ->
  (if Qltb 0 minimum && Qltb value minimum then false else rest) = true.
Proof.
  intros Hle Hrest.
  destruct (Qltb 0 minimum && Qltb value minimum) eqn:Hrej.
  - apply andb_true_iff in Hrej as [Hpos Hlow].
    apply Qltb_lt in Hpos, Hlow.
    assert (H1 : Qltb 0 minimum' = true) by (apply Qltb_lt; lra).
    assert (H2 : Qltb value minimum' = true) by (apply Qltb_lt; lra).
    now rewrite H1, H2.
  - destruct (Qltb 0 minimum' && Qltb value minimum'); [discriminate|].
    exact Hrest.
Qed.

(** X24.  Tightening the configuration never lets a new token through:
    if [strict] has every toggle of [loose] switched on, minimums that are
    at least as high and the same query, then a token that [strict]
    accepts is accepted by [loose]. *)
Theorem tightening_never_adds_tokens
    (toLowerCase : string -> string)
    (parseLpHolders : string -> option (list LpHolder))
    (loose strict : FilterState) (token : Token) :
  (hideHoneypots loose = true -> hideHoneypots strict = true) ->
  (showOnlyHoneypots loose = true -> showOnlyHoneypots strict = true) ->
  (hideDanger loose = true -> hideDanger strict = true) ->
  (hideWarning loose = true -> hideWarning strict = true) ->
  (showOnlySafe loose = true -> showOnlySafe strict = true) ->
  (hideNotRenounced loose = true -> hideNotRenounced strict = true) ->
  (hideUnlockedLiquidity loose = true -> hideUnlockedLiquidity strict = true) ->
  (minHolders loose <= minHolders strict)%Q ->
  (minLiquidity loose <= minLiquidity strict)%Q ->
  searchQuery loose = searchQuery strict ->
  tokenFilter toLowerCase parseLpHolders strict token = true ->
  tokenFilter toLowerCase parseLpHolders loose token = true.
Proof.
  intros H1 H2 H3 H4 H5 H6 H7 Hholders Hliquidity Hquery.
  unfold tokenFilter. rewrite Hquery.
  apply reject_rule_monotone; [exact H1|].
  apply reject_rule_monotone; [exact H2|].
  apply reject_rule_monotone; [exact H3|].
  apply reject_rule_monotone; [exact H4|].
  apply reject_rule_monotone; [exact H5|].
  apply reject_rule_monotone; [exact H6|].
  apply reject_rule_monotone; [exact H7|].
  apply minimum_rule_monotone; [exact Hholders|].
  apply minimum_rule_monotone; [exact Hliquidity|].
  tauto.
Qed.

(** ** The liquidity-lock test *)

(** Without a locked entry the reducer adds 0 to 0 at every step. *)
Lemma totalLocked_without_locks (lpHolders : list LpHolder) :
  Forall (fun holder => is_locked holder = false) lpHolders ->
  totalLocked lpHolders = 0%float.
Proof.
  unfold totalLocked. induction 1 as [|holder l Hholder _ IH]; simpl.
  - reflexivity.
  - rewrite Hholder. exact IH.
Qed.

(** A locked entry whose [percent] is NaN makes the sum NaN. *)
Lemma totalLocked_NaN (lpHolders : list LpHolder) :
  (exists holder, In holder lpHolders /\
                  is_locked holder = true /\ is_nan (percent holder) = true) ->
  isNaN (totalLocked lpHolders).
Proof.
  intros (holder & Hin & Hlocked & Hnan). unfold totalLocked.
  apply (fold_left_some_NaN _
           (fun holder => is_locked holder = true /\ isNaN (percent holder))).
  - intros acc a Hacc. apply add_NaN. now left.
  - intros acc a [Ha Hp]. rewrite Ha. apply add_NaN. right.
    apply mul_NaN. now left.
  - right. exists holder. rewrite <- is_nan_isNaN. auto.
Qed.

(** X25.  The lock test rejects a token whose lock descriptor cannot be
    parsed, and a token whose descriptor lists no locked entry (an absent
    descriptor is read as the empty list): the sum of the locked percentages
    is then 0, which is below 90. *)
Theorem lock_test_rejects_without_locks
    (parseLpHolders : string -> option (list LpHolder)) (token : Token) :
  parseLpHolders (lockDescriptor token) = None \/
  (exists lpHolders,
     parseLpHolders (lockDescriptor token) = Some lpHolders /\
     Forall (fun holder => is_locked holder = false) lpHolders) ->
  rejectsUnlocked parseLpHolders token = true.
Proof.
  unfold rejectsUnlocked. fold (lockDescriptor token).
  intros [-> | (lpHolders & -> & Hnone)]; [reflexivity|].
  now rewrite (totalLocked_without_locks lpHolders Hnone).
Qed.

(** X26.  A locked entry whose [percent] is not a number makes the sum
    NaN, and the comparison with 90 then fails: the lock test lets the
    token through, whatever the other entries are. *)
Theorem lock_test_passes_on_NaN
    (parseLpHolders : string -> option (list LpHolder))
    (token : Token) (lpHolders : list LpHolder) :
  parseLpHolders (lockDescriptor token) = Some lpHolders ->
  (exists holder, In holder lpHolders /\
                  is_locked holder = true /\ is_nan (percent holder) = true) ->
  rejectsUnlocked parseLpHolders token = false.
Proof.
  intros Hparse Hnan. unfold rejectsUnlocked. fold (lockDescriptor token).
  rewrite Hparse. apply ltb_NaN. left. now apply totalLocked_NaN.
Qed.

(** The sum is the rounded one.  The locked percentages 0.03, 0.29 and 0.58
    add up to 89.99999999999999 and the token is rejected; 0.3, 0.3 and 0.3
    add up to 90 and the token is let through. *)
Example lock_sum_is_rounded :
  (totalLocked [ {| is_locked := true; percent := 0.03 |};
                 {| is_locked := true; percent := 0.29 |};
                 {| is_locked := true; percent := 0.58 |} ] <? 90)%float
  = true /\
  (totalLocked [ {| is_locked := true; percent := 0.3 |};
                 {| is_locked := true; percent := 0.3 |};
                 {| is_locked := true; percent := 0.3 |} ] <? 90)%float
  = false.
Proof. split; reflexivity. Qed.

(** ** The search test *)

Lemma prefix_append (q s : string) :
  String.prefix q s = true <-> exists post, s = String.append q post.
Proof.
  revert s. induction q as [|c q IH]; intros s.
  - destruct s; simpl; split; eauto.
  - destruct s as [|d s]; simpl.
    + split; [discriminate|]. now intros (post & H).
    + destruct (ascii_dec c d) as [-> | Hne].
      * rewrite IH. split.
        -- intros (post & ->). eauto.
        -- intros (post & [= ->]). eauto.
      * split; [discriminate|]. intros (post & [= <- _]). contradiction.
Qed.

Lemma includes_substring (s q : string) :
  JsString.includes s q = true <->
  exists pre post, s = String.append pre (String.append q post).
Proof.
  induction s as [|c s IH].
  - cbn [JsString.includes]. rewrite orb_false_r, prefix_append. split.
    + intros (post & ->). now exists "", post.
    + intros (pre & post & H). destruct pre as [|d pre]; [|discriminate].
      eauto.
  - cbn [JsString.includes]. rewrite orb_true_iff, prefix_append, IH. split.
    + intros [(post & ->) | (pre & post & ->)].
      * now exists "", post.
      * now exists (String c pre), post.
    + intros (pre & post & H). destruct pre as [|d pre].
      * left. eauto.
      * right. injection H as <- ->. eauto.
Qed.

(** X27.  The search test holds exactly when the lower-cased query occurs
    as a contiguous substring of the lower-cased name, symbol or address
    of the token. *)
Theorem search_is_substring_match
    (toLowerCase : string -> string) (token : Token) (query : string) :
  searchToken toLowerCase token query = true <->
  exists field pre post,
    (field = tokenName token \/ field = tokenSymbol token \/
     field = tokenAddress token) /\
    toLowerCase field
    = String.append pre (String.append (toLowerCase query) post).
Proof.
  unfold searchToken. rewrite !orb_true_iff, !includes_substring. split.
  - intros [[(pre & post & H) | (pre & post & H)] | (pre & post & H)].
    + exists (tokenName token), pre, post. tauto.
    + exists (tokenSymbol token), pre, post. tauto.
    + exists (tokenAddress token), pre, post. tauto.
  - intros (field & pre & post & [-> | [-> | ->]] & H); eauto.
Qed.

(** ** More on the trend estimator *)

(** X28.  One sample whose selected value is NaN decides the trend of a
    history of two or more samples: the mean and every term of the
    numerator are NaN, so is the slope, both comparisons of the
    classification fail, and the estimator returns down. *)
Theorem trend_of_NaN_sample_is_down
    (history : list HistorySample) (type : TrendType) :
  (2 <= length history)%nat ->
  (exists record, In record history /\
                  is_nan (Trend.selectY type record) = true) ->
  calculateTrend history type = down.
Proof.
  intros Hn (record & Hin & Hnan). unfold calculateTrend.
  assert (Hn' : (length history <? 2)%nat = false) by (apply Nat.ltb_ge; lia).
  rewrite Hn'. apply classify_NaN, slope_NaN.
  exists (Trend.selectY type record). split.
  - unfold Trend.yPoints. apply in_map.
    eapply Permutation_in; [|exact Hin].
    symmetry. apply sort_Permutation.
  - now apply is_nan_isNaN.
Qed.

(** The estimator is sensitive to the level of the values, through the
    rounding of the mean: the holder counts 0, 0, 0, 0, 1, 0, 0, 1, 0 have
    the computed slope 0.049999999999999996 and are stagnant; the same
    counts raised by 1 have the computed slope 0.05 and are up. *)
Example trend_depends_on_level :
  Trend.classify (Trend.slope [0; 0; 0; 0; 1; 0; 0; 1; 0]%float) = stagnant /\
  Trend.classify (Trend.slope [1; 1; 1; 1; 2; 1; 1; 2; 1]%float) = up.
Proof. split; reflexivity. Qed.

(** ** The properties above on concrete inputs *)

(** X5, instantiated: a click on the collapsed second row. *)
Lemma click_resets_estimate_to_new_state_witness :
  (exists token,
     In token SampleView.filtered /\ tokenAddress token = "0xBB") /\
  estimateSize SampleView.filtered
    (measuredHeights
       (fst (handleTokenClick SampleView.filtered "0xBB" SampleView.state)))
    (expandedTokens
       (fst (handleTokenClick SampleView.filtered "0xBB" SampleView.state)))
    1
  = 800%Q.
Proof.
  assert (Hex : exists token,
             In token SampleView.filtered /\ tokenAddress token = "0xBB").
  { exists Sample.doge. split; [simpl; right; left|]; reflexivity. }
  split; [exact Hex|].
  exact (click_resets_estimate_to_new_state
           SampleView.filtered "0xBB" SampleView.state Hex).
Defined.

(** X6, instantiated: a click on an address that the filter hides. *)
Lemma click_outside_filtered_sequence_witness :
  (forall token, In token SampleView.filtered ->
     tokenAddress token <> "0xEE") /\
  snd (handleTokenClick SampleView.filtered "0xEE" SampleView.state)
  = [Measure].
Proof.
  assert (Hout : forall token, In token SampleView.filtered ->
                   tokenAddress token <> "0xEE").
  { intros token [<- | [<- | [<- | []]]]; discriminate. }
  split; [exact Hout|].
  exact (proj1 (click_outside_filtered_sequence
                  SampleView.filtered "0xEE" SampleView.state Hout)).
Defined.

(** X7, instantiated: the second of three reported rows grew to 60. *)
Lemma resize_report_records_last_height_witness :
  (0 <= entryIndex Scenario.grownRow)%Z /\
  (forall e, In e [Scenario.lastReport] ->
     entryIndex e <> entryIndex Scenario.grownRow) /\
  exists h,
    fst (onResizeEntries (measuredHeights SampleView.state)
           ([Scenario.firstReport] ++ Scenario.grownRow
              :: [Scenario.lastReport]))
      !! entryIndex Scenario.grownRow = Some h /\
    (h == 60)%Q.
Proof.
  assert (Hge : (0 <= entryIndex Scenario.grownRow)%Z) by (simpl; lia).
  assert (Hlast : forall e, In e [Scenario.lastReport] ->
                    entryIndex e <> entryIndex Scenario.grownRow).
  { intros e [<- | []]. discriminate. }
  split; [exact Hge|]. split; [exact Hlast|].
  exact (resize_report_records_last_height
           (measuredHeights SampleView.state)
           [Scenario.firstReport] [Scenario.lastReport]
           Scenario.grownRow Hge Hlast).
Defined.

(** X8, instantiated: a report about rows 0 and 1 leaves row 2 alone. *)
Lemma resize_report_touches_only_reported_rows_witness :
  (forall e, In e [Scenario.firstReport; Scenario.grownRow] ->
     entryIndex e <> 2%Z \/ (entryIndex e < 0)%Z) /\
  fst (onResizeEntries (measuredHeights SampleView.state)
         [Scenario.firstReport; Scenario.grownRow]) !! 2%Z
  = measuredHeights SampleView.state !! 2%Z.
Proof.
  assert (Hother : forall e,
             In e [Scenario.firstReport; Scenario.grownRow] ->
             entryIndex e <> 2%Z \/ (entryIndex e < 0)%Z).
  { intros e [<- | [<- | []]]; left; discriminate. }
  split; [exact Hother|].
  exact (resize_report_touches_only_reported_rows
           (measuredHeights SampleView.state)
           [Scenario.firstReport; Scenario.grownRow] 2 Hother).
Defined.

(** X9, instantiated: a report that repeats the stored height of row 1. *)
Lemma resize_report_remeasures_iff_changed_witness :
  (forall e, In e [Scenario.sameRow] -> (0 <= entryIndex e)%Z ->
     exists prev,
       measuredHeights SampleView.state !! entryIndex e = Some prev /\
       (prev == entryHeight e)%Q) /\
  onResizeEntries (measuredHeights SampleView.state) [Scenario.sameRow]
  = (measuredHeights SampleView.state, []).
Proof.
  assert (Hsame : forall e, In e [Scenario.sameRow] ->
            (0 <= entryIndex e)%Z ->
            exists prev,
              measuredHeights SampleView.state !! entryIndex e = Some prev /\
              (prev == entryHeight e)%Q).
  { intros e [<- | []] _. exists 50%Q. split; reflexivity. }
  split; [exact Hsame|].
  exact (proj2 (resize_report_remeasures_iff_changed
                  (measuredHeights SampleView.state) [Scenario.sameRow])
           Hsame).
Defined.

(** X10, instantiated: nothing is stored. *)
Lemma unusable_saved_filters_mean_no_filtering_witness :
  (∅ : gmap string string) !! STORAGE_KEY = None /\
  maxRecords (getSavedFilters Scenario.parseSaved ∅) = 50%Z.
Proof.
  split; [reflexivity|].
  apply (unusable_saved_filters_mean_no_filtering Scenario.parseSaved
           JsString.asciiToLowerCase Sample.noLocks ∅).
  left. reflexivity.
Defined.

(** X11, instantiated: the configuration with the query "pepe" is stored
    and read back. *)
Lemma saved_filters_round_trip_witness :
  Scenario.stringifySaved Sample.hideDangerSearch <> "" /\
  Scenario.parseSaved (Scenario.stringifySaved Sample.hideDangerSearch)
  = Normal Sample.hideDangerSearch /\
  getSavedFilters Scenario.parseSaved
    (localStorage
       (updateFilters Scenario.stringifySaved
          (Replace Sample.hideDangerSearch) Scenario.view))
  = Sample.hideDangerSearch.
Proof.
  split; [discriminate|]. split; [reflexivity|].
  apply (saved_filters_round_trip Scenario.parseSaved
           Scenario.stringifySaved (Replace Sample.hideDangerSearch)
           Scenario.view).
  - discriminate.
  - reflexivity.
Defined.

(** X12, instantiated: the second of three collapsed rows starts at 42. *)
Lemma position_is_height_of_rows_before_witness :
  (forall t, In t [Sample.shib] ->
     tokenAddress t <> tokenAddress Sample.doge) /\
  calculatePositions ([Sample.pepe] ++ Sample.doge :: [Sample.shib]) ∅
    !! tokenAddress Sample.doge
  = Some (totalHeight [Sample.pepe] ∅).
Proof.
  assert (Hlast : forall t, In t [Sample.shib] ->
                    tokenAddress t <> tokenAddress Sample.doge).
  { intros t [<- | []]. discriminate. }
  split; [exact Hlast|].
  exact (position_is_height_of_rows_before
           [Sample.pepe] [Sample.shib] Sample.doge ∅ Hlast).
Defined.

(** X15, instantiated: the history of the first token arrives. *)
Lemma fetch_result_updates_one_row_witness :
  tokenAddress Sample.pepe = "0xAA" /\
  displayedTrends
    (tokenTrends
       (fetchResolved "0xAA" (Normal (Some Sample.growth))
          Scenario.emptyStore))
    Sample.pepe
  = trendsOf Sample.growth.
Proof.
  split; [reflexivity|].
  destruct (fetch_result_updates_one_row "0xAA"
              (Normal (Some Sample.growth)) Scenario.emptyStore Sample.pepe)
    as [_ Hown].
  destruct (Hown eq_refl) as [Hsuccess _].
  exact (proj1 (Hsuccess Sample.growth eq_refl)).
Defined.

Lemma scenario_first_fetch_run :
  rtc fetchStep (initialFetchState ∅) Scenario.afterFirstFetch.
Proof.
  eapply rtc_l.
  - apply (effectRuns SampleView.filtered [0; 1]%Z).
  - eapply rtc_l; [|apply rtc_refl].
    apply (requestResolves "0xAA" (Normal (Some Sample.growth))
             [] ["0xBB"] Scenario.emptyStore).
Defined.

(** X16, instantiated: after the first request resolved, the stored pair
    of the first token is the pair of trends of its stored history. *)
Lemma trend_store_matches_histories_witness :
  rtc fetchStep (initialFetchState ∅) Scenario.afterFirstFetch /\
  tokenTrends (store Scenario.afterFirstFetch) !! "0xAA"
  = Some (trendsOf Sample.growth) /\
  exists history,
    tokenHistories (store Scenario.afterFirstFetch) !! "0xAA"
    = Some history /\
    trendsOf Sample.growth
    = {| liquidityTrend := calculateTrend history liquidity;
         holdersTrend := calculateTrend history holders |}.
Proof.
  split; [exact scenario_first_fetch_run|].
  assert (Hstored : tokenTrends (store Scenario.afterFirstFetch) !! "0xAA"
                    = Some (trendsOf Sample.growth)) by reflexivity.
  split; [exact Hstored|].
  exact (trend_store_matches_histories ∅ Scenario.afterFirstFetch
           scenario_first_fetch_run "0xAA" (trendsOf Sample.growth) Hstored).
Defined.

Lemma scenario_cached_run :
  rtc fetchStep (initialFetchState Sample.cachedEntries)
    Scenario.afterCachedRun.
Proof.
  eapply rtc_l.
  - apply (effectRuns SampleView.filtered [0; 1; 2]%Z).
  - eapply rtc_l; [|apply rtc_refl].
    apply (requestResolves "0xBB" (Normal (Some Sample.slowGrowth))
             [] ["0xCC"] Scenario.cachedStore).
Defined.

(** X18, instantiated: the first token's history is cached, the effect
    runs on all three rows and the second token's request resolves. *)
Lemma cached_history_never_gets_trends_witness :
  rtc fetchStep (initialFetchState Sample.cachedEntries)
    Scenario.afterCachedRun /\
  is_Some (Sample.cachedEntries !! (tokenAddress Sample.pepe)) /\
  displayedTrends (tokenTrends (store Scenario.afterCachedRun)) Sample.pepe
  = {| liquidityTrend := stagnant; holdersTrend := stagnant |}.
Proof.
  assert (Hcached : is_Some
            (Sample.cachedEntries !! (tokenAddress Sample.pepe))).
  { exists Sample.growth. reflexivity. }
  split; [exact scenario_cached_run|]. split; [exact Hcached|].
  destruct (cached_history_never_gets_trends Sample.cachedEntries
              Scenario.afterCachedRun Sample.pepe
              scenario_cached_run Hcached) as (_ & _ & Hshown).
  exact Hshown.
Defined.

(** X20, instantiated: three accepted tokens under the limit of 50. *)
Lemma nothing_dropped_within_limit_witness :
  (Z.of_nat
     (length
        (List.filter
           (tokenFilter JsString.asciiToLowerCase Sample.noLocks
              Sample.defaults)
           SampleView.filtered))
   <= maxRecords Sample.defaults)%Z /\
  Permutation
    (filteredTokens JsString.asciiToLowerCase Sample.noLocks
       SampleView.filtered Sample.defaults)
    (List.filter
       (tokenFilter JsString.asciiToLowerCase Sample.noLocks Sample.defaults)
       SampleView.filtered).
Proof.
  assert (Hfit : (Z.of_nat
            (length
               (List.filter
                  (tokenFilter JsString.asciiToLowerCase Sample.noLocks
                     Sample.defaults)
                  SampleView.filtered))
          <= maxRecords Sample.defaults)%Z) by (simpl; lia).
  split; [exact Hfit|].
  exact (nothing_dropped_within_limit JsString.asciiToLowerCase
           Sample.noLocks SampleView.filtered Sample.defaults Hfit).
Defined.

(** X21, instantiated on the default configuration. *)
Lemma engine_is_idempotent_witness :
  (0 <= maxRecords Sample.defaults)%Z /\
  filteredTokens JsString.asciiToLowerCase Sample.noLocks
    (filteredTokens JsString.asciiToLowerCase Sample.noLocks
       SampleView.filtered Sample.defaults)
    Sample.defaults
  = filteredTokens JsString.asciiToLowerCase Sample.noLocks
      SampleView.filtered Sample.defaults.
Proof.
  assert (Hmax : (0 <= maxRecords Sample.defaults)%Z) by (simpl; lia).
  split; [exact Hmax|].
  exact (engine_is_idempotent JsString.asciiToLowerCase Sample.noLocks
           SampleView.filtered Sample.defaults Hmax).
Defined.

(** X22, instantiated: the unknown sort field "newest". *)
Lemma unrecognised_sortBy_keeps_input_order_witness :
  sortBy (Sample.withSortBy "newest") <> "age" /\
  filteredTokens JsString.asciiToLowerCase Sample.noLocks
    SampleView.filtered (Sample.withSortBy "newest")
  = SampleView.filtered.
Proof.
  split; [discriminate|].
  apply (unrecognised_sortBy_keeps_input_order JsString.asciiToLowerCase
           Sample.noLocks SampleView.filtered (Sample.withSortBy "newest"));
    discriminate.
Defined.

(** X24, instantiated: hiding dangerous tokens on top of the defaults. *)
Lemma tightening_never_adds_tokens_witness :
  tokenFilter JsString.asciiToLowerCase Sample.noLocks
    Scenario.hideDangerOnly Sample.doge = true /\
  tokenFilter JsString.asciiToLowerCase Sample.noLocks
    Sample.defaults Sample.doge = true.
Proof.
  assert (Hstrict : tokenFilter JsString.asciiToLowerCase Sample.noLocks
                      Scenario.hideDangerOnly Sample.doge = true)
    by reflexivity.
  split; [exact Hstrict|].
  apply (tightening_never_adds_tokens JsString.asciiToLowerCase
           Sample.noLocks Sample.defaults Scenario.hideDangerOnly
           Sample.doge);
    first [exact Hstrict | simpl; discriminate | simpl; lra | reflexivity].
Defined.

(** X25, instantiated: two entries, neither of them locked. *)
Lemma lock_test_rejects_without_locks_witness :
  Scenario.parseLocks (lockDescriptor (Scenario.withLocks "unlocked"))
  = Some [ {| is_locked := false; percent := 0.5 |};
           {| is_locked := false; percent := 0.45 |} ] /\
  rejectsUnlocked Scenario.parseLocks (Scenario.withLocks "unlocked")
  = true.
Proof.
  split; [reflexivity|].
  apply (lock_test_rejects_without_locks Scenario.parseLocks
           (Scenario.withLocks "unlocked")).
  right. eexists. split; [reflexivity|].
  repeat constructor.
Defined.

(** X26, instantiated: a locked entry without a readable percentage. *)
Lemma lock_test_passes_on_NaN_witness :
  Scenario.parseLocks (lockDescriptor (Scenario.withLocks "unreadable"))
  = Some [ {| is_locked := true; percent := nan |};
           {| is_locked := true; percent := 0.1 |} ] /\
  rejectsUnlocked Scenario.parseLocks (Scenario.withLocks "unreadable")
  = false.
Proof.
  split; [reflexivity|].
  apply (lock_test_passes_on_NaN Scenario.parseLocks
           (Scenario.withLocks "unreadable")
           [ {| is_locked := true; percent := nan |};
             {| is_locked := true; percent := 0.1 |} ]).
  - reflexivity.
  - exists {| is_locked := true; percent := nan |}.
    split; [now left|]. split; reflexivity.
Defined.

(** X28, instantiated: the second of three samples lacks a holder count. *)
Lemma trend_of_NaN_sample_is_down_witness :
  (2 <= length Sample.gappy)%nat /\
  calculateTrend Sample.gappy holders = down /\
  calculateTrend Sample.gappy liquidity = up.
Proof.
  assert (Hlen : (2 <= length Sample.gappy)%nat) by (simpl; lia).
  split; [exact Hlen|]. split; [|reflexivity].
  apply (trend_of_NaN_sample_is_down Sample.gappy holders Hlen).
  exists {| timestamp := 2000; totalLiquidity := 1010; holderCount := nan |}.
  split; [right; now left | reflexivity].
Defined.
